(** * gymmeforce.common.utils: replay memory, exploration policy and schedules

    A shallow embedding of [gymmeforce/common/utils.py].  Python integers are
    [Z]; NumPy arrays indexed along their first axis are lists; Python
    exceptions are values of [exn].  The global NumPy random generator is
    made explicit: a function that draws takes the raw values the generator
    hands out, and every statement about it holds for all of them.  A loop
    that draws until it is satisfied is given a finite list of draws and is
    [Pending] when the list runs out first. *)

From Stdlib Require Import ZArith QArith Qpower Qfield Reals Psatz Lia List Bool.
From Stdlib Require Import PrimFloat FloatOps FloatAxioms SpecFloat.
From stdpp Require Import base list.
Import ListNotations.

#[local] Set Warnings "-inexact-float".
Local Open Scope Z_scope.

(** ** Python and NumPy primitives *)

Inductive exn : Set :=
| ValueError
| IndexError
| AttributeError
| ZeroDivisionError
| TypeError.

(** What a call does: it returns, it raises, or (for a loop fed by random
    draws) it is still running when the draws it was given are used up. *)
Inductive outcome (A : Type) : Type :=
| Returned (a : A)
| Raised (e : exn)
| Pending.
Arguments Returned {A} a.
Arguments Raised {A} e.
Arguments Pending {A}.

#[global] Instance outcome_ret : MRet outcome := @Returned.
#[global] Instance outcome_bind : MBind outcome := fun A B k m =>
  match m with
  | Returned a => k a
  | Raised e => Raised e
  | Pending => Pending
  end.

(** [self.attr] on an attribute that may not have been assigned yet. *)
Definition getattr {A : Type} (attr : option A) : outcome A :=
  match attr with
  | Some a => Returned a
  | None => Raised AttributeError
  end.

(** [len(l)] as a Python integer. *)
Definition len {A : Type} (l : list A) : Z := Z.of_nat (length l).

(** An index as Python resolves it: a negative one counts from the end. *)
Definition py_norm {A : Type} (l : list A) (i : Z) : Z :=
  if i <? 0 then i + len l else i.

(** [l[i]]. *)
Definition py_index {A : Type} (l : list A) (i : Z) : outcome A :=
  let j := py_norm l i in
  if (0 <=? j) && (j <? len l)
  then match l !! Z.to_nat j with
       | Some x => Returned x
       | None => Raised IndexError
       end
  else Raised IndexError.

(** [l[i] = x]. *)
Definition py_setitem {A : Type} (l : list A) (i : Z) (x : A) : outcome (list A) :=
  let j := py_norm l i in
  if (0 <=? j) && (j <? len l)
  then Returned (<[Z.to_nat j := x]> l)
  else Raised IndexError.

(** A slice bound: negative bounds count from the end, then both are clamped. *)
Definition py_clamp {A : Type} (l : list A) (i : Z) : Z :=
  Z.max 0 (Z.min (len l) (py_norm l i)).

(** [l[lo:hi]]. *)
Definition py_slice {A : Type} (l : list A) (lo hi : Z) : list A :=
  let a := py_clamp l lo in
  let b := py_clamp l hi in
  take (Z.to_nat (b - a)) (drop (Z.to_nat a) l).

(** [np.roll(l, shift, axis=0)]: the element at [i] moves to [(i + shift) % n]. *)
Definition np_roll {A : Type} (l : list A) (shift : Z) : list A :=
  if len l =? 0 then l
  else let k := Z.to_nat ((- shift) mod len l) in drop k l ++ take k l.

(** [np.any(l)]. *)
Definition np_any (l : list bool) : bool := existsb (fun b => b) l.

(** [np.random.randint(low, high)]: a value of [[low, high)] chosen by the raw
    draw [r]; NumPy raises [ValueError] when the range is empty. *)
Definition randint (low high : Z) (r : Z) : outcome Z :=
  if high <=? low then Raised ValueError
  else Returned (low + r mod (high - low)).

(** ** RingBuffer *)

Module RingBuffer.
Section RingBuffer.
(** Shapes and frames are kept abstract: [np_zeros shape] is the all-zero
    frame of that shape and [np_squeeze] is [np.squeeze] on one frame.  Every
    frame appended is taken to fit [state_shape] once squeezed. *)
Context {Shape Frame : Type}.
Variable np_zeros : Shape -> Frame.
Variable np_squeeze : Frame -> Frame.

Record t : Type := mk {
  state_shape : Shape;
  maxlen : Z;
  current_idx : Z;
  data : list Frame
}.

(** [np.zeros((maxlen,) + state_shape)] refuses a negative length. *)
Definition reset (self : t) : outcome t :=
  if maxlen self <? 0 then Raised ValueError
  else Returned (mk (state_shape self) (maxlen self) (current_idx self)
                    (replicate (Z.to_nat (maxlen self)) (np_zeros (state_shape self)))).

Definition __init__ (state_shape : Shape) (maxlen : Z) : outcome t :=
  reset (mk state_shape maxlen 0 []).

Definition append (self : t) (x : Frame) : outcome t :=
  let rolled := np_roll (data self) (-1) in
  d ← py_setitem rolled (maxlen self - 1) (np_squeeze x);
  Returned (mk (state_shape self) (maxlen self) (current_idx self) d).

(** Appending a list of frames, oldest first. *)
Fixpoint append_all (self : t) (xs : list Frame) : outcome t :=
  match xs with
  | [] => Returned self
  | x :: xs' => self' ← append self x; append_all self' xs'
  end.

(** The buffer is well formed when its window has [maxlen] slots. *)
Definition wf (self : t) : Prop := len (data self) = maxlen self.

End RingBuffer.
Arguments t : clear implicits.
End RingBuffer.

(** ** ReplayBuffer *)

Module ReplayBuffer.
Section ReplayBuffer.
(** States, actions and rewards are kept abstract.  [np_squeeze] is
    [np.squeeze] on one state; [as_int32] and [as_float32] are the
    conversions NumPy applies when a value is written into the [actions]
    and [rewards] arrays; the [junk_] functions give the arbitrary contents
    of the arrays [np.empty] hands back.  Every state added is taken to have
    the shape of the first one, so that writing it into [states] succeeds. *)
Context {State Action Reward : Type}.
Variable np_squeeze : State -> State.
Variable as_int32 : Action -> Action.
Variable as_float32 : Reward -> Reward.
Variable junk_states : nat -> State.
Variable junk_actions : nat -> Action.
Variable junk_rewards : nat -> Reward.
Variable junk_dones : nat -> bool.

Record t : Type := mk {
  initialized : bool;
  maxlen : Z;
  history_length : Z;
  batch_size : Z;
  current_idx : Z;
  current_len : Z;
  states : option (list State);
  actions : option (list Action);
  rewards : option (list Reward);
  dones : option (list bool)
}.

(** The source defaults are [history_length=1] and [batch_size=32]. *)
Definition __init__ (maxlen history_length batch_size : Z) : t :=
  mk false maxlen history_length batch_size 0 0 None None None None.

(** [np.empty(n)]: [n] slots of arbitrary content. *)
Definition np_empty {A : Type} (n : nat) (junk : nat -> A) : list A :=
  map junk (seq 0 n).

(** A statement of a method body: it updates [self] and either falls
    through or raises. *)
Definition stmt : Type := t -> t * outcome unit.

Definition andthen (s1 s2 : stmt) : stmt := fun self =>
  match s1 self with
  | (self', Returned _) => s2 self'
  | r => r
  end.

(** The [if not self.initialized] block of [add].  [np.empty] refuses a
    negative length, after [initialized] has been set. *)
Definition allocate : stmt := fun self =>
  if initialized self then (self, Returned tt)
  else
    let self1 := mk true (maxlen self) (history_length self) (batch_size self)
                    (current_idx self) (current_len self)
                    (states self) (actions self) (rewards self) (dones self) in
    if maxlen self <? 0 then (self1, Raised ValueError)
    else
      let n := Z.to_nat (maxlen self) in
      (mk true (maxlen self) (history_length self) (batch_size self)
          (current_idx self) (current_len self)
          (Some (np_empty n junk_states)) (Some (np_empty n junk_actions))
          (Some (np_empty n junk_rewards)) (Some (np_empty n junk_dones)),
       Returned tt).

Definition store_state (state : State) : stmt := fun self =>
  match l ← getattr (states self); py_setitem l (current_idx self) (np_squeeze state) with
  | Returned l' =>
      (mk (initialized self) (maxlen self) (history_length self) (batch_size self)
          (current_idx self) (current_len self)
          (Some l') (actions self) (rewards self) (dones self), Returned tt)
  | Raised e => (self, Raised e)
  | Pending => (self, Pending)
  end.

Definition store_action (action : Action) : stmt := fun self =>
  match l ← getattr (actions self); py_setitem l (current_idx self) (as_int32 action) with
  | Returned l' =>
      (mk (initialized self) (maxlen self) (history_length self) (batch_size self)
          (current_idx self) (current_len self)
          (states self) (Some l') (rewards self) (dones self), Returned tt)
  | Raised e => (self, Raised e)
  | Pending => (self, Pending)
  end.

Definition store_reward (reward : Reward) : stmt := fun self =>
  match l ← getattr (rewards self); py_setitem l (current_idx self) (as_float32 reward) with
  | Returned l' =>
      (mk (initialized self) (maxlen self) (history_length self) (batch_size self)
          (current_idx self) (current_len self)
          (states self) (actions self) (Some l') (dones self), Returned tt)
  | Raised e => (self, Raised e)
  | Pending => (self, Pending)
  end.

Definition store_done (done : bool) : stmt := fun self =>
  match l ← getattr (dones self); py_setitem l (current_idx self) done with
  | Returned l' =>
      (mk (initialized self) (maxlen self) (history_length self) (batch_size self)
          (current_idx self) (current_len self)
          (states self) (actions self) (rewards self) (Some l'), Returned tt)
  | Raised e => (self, Raised e)
  | Pending => (self, Pending)
  end.

(** [self.current_idx = (self.current_idx + 1) % self.maxlen] and
    [self.current_len = min(self.current_len + 1, self.maxlen)]. *)
Definition advance : stmt := fun self =>
  if maxlen self =? 0 then (self, Raised ZeroDivisionError)
  else
    let idx := (current_idx self + 1) mod maxlen self in
    (mk (initialized self) (maxlen self) (history_length self) (batch_size self)
        idx (Z.min (current_len self + 1) (maxlen self))
        (states self) (actions self) (rewards self) (dones self), Returned tt).

Definition add (state : State) (action : Action) (reward : Reward) (done : bool) : stmt :=
  andthen allocate
    (andthen (store_state state)
      (andthen (store_action action)
        (andthen (store_reward reward)
          (andthen (store_done done) advance)))).

(** One transition as [add] receives it. *)
Definition transition : Type := State * Action * Reward * bool.

(** A sequence of [add] calls; it stops at the first call that raises. *)
Fixpoint add_all (ts : list transition) : stmt :=
  match ts with
  | [] => fun self => (self, Returned tt)
  | (state, action, reward, done) :: ts' =>
      andthen (add state action reward done) (add_all ts')
  end.

(** The transition as it is held in the arrays. *)
Definition as_stored (tr : transition) : transition :=
  let '(state, action, reward, done) := tr in
  (np_squeeze state, as_int32 action, as_float32 reward, done).

(** What slot [i] of the four arrays holds. *)
Definition slot (self : t) (i : nat) : option transition :=
  ss ← states self; s ← ss !! i;
  aa ← actions self; a ← aa !! i;
  rr ← rewards self; r ← rr !! i;
  dd ← dones self; d ← dd !! i;
  Some (s, a, r, d).

(** The loop of [_generate_idxs].  [draws] are the raw values the random
    generator hands to the successive [randint] calls; the result is
    [Pending] when they are used up and the loop has not finished. *)
Fixpoint generate_loop (self : t) (draws : list Z) (start_idxs end_idxs : list Z)
  : outcome (list Z * list Z) :=
  if negb (len start_idxs <? batch_size self) then Returned (start_idxs, end_idxs)
  else
    let high := current_len self - history_length self in
    match draws with
    | [] => _ ← randint 0 high 0; Pending
    | r :: draws' =>
        start_idx ← randint 0 high r;
        let end_idx := start_idx + history_length self in
        (* Check if idx was already picked *)
        if bool_decide (start_idx ∈ start_idxs)
        then generate_loop self draws' start_idxs end_idxs
        else
          (* Only the last frame can have done == True *)
          dd ← getattr (dones self);
          if np_any (py_slice dd start_idx (end_idx - 1))
          then generate_loop self draws' start_idxs end_idxs
          else generate_loop self draws' (start_idxs ++ [start_idx]) (end_idxs ++ [end_idx])
    end.

Definition _generate_idxs (self : t) (draws : list Z) : outcome (list Z * list Z) :=
  generate_loop self draws [] [].

(** The mini-batch [sample] returns, before the axes of the two state
    batches are swapped (a change of layout only). *)
Definition batch : Type :=
  list (list State) * list (list State) * list Action * list Reward * list bool.

(** [arr[end_idxs - 1]]: indexing with an array of indices.  The array
    built from an empty list of indices is not an integer array, which
    NumPy refuses as an index. *)
Definition take_at {A : Type} (arr : list A) (end_idxs : list Z) : outcome (list A) :=
  match end_idxs with
  | [] => Raised IndexError
  | _ => mapM (fun end_idx => py_index arr (end_idx - 1)) end_idxs
  end.

Definition sample (self : t) (draws : list Z) : outcome batch :=
  '(start_idxs, end_idxs) ← _generate_idxs self draws;
  b_states_t ←
    mapM (fun '(start_idx, end_idx) =>
            ss ← getattr (states self); Returned (py_slice ss start_idx end_idx))
         (zip start_idxs end_idxs);
  b_states_tp1 ←
    mapM (fun '(start_idx, end_idx) =>
            ss ← getattr (states self);
            Returned (py_slice ss (start_idx + 1) (end_idx + 1)))
         (zip start_idxs end_idxs);
  aa ← getattr (actions self);
  b_actions ← take_at aa end_idxs;
  rr ← getattr (rewards self);
  b_rewards ← take_at rr end_idxs;
  dd ← getattr (dones self);
  b_dones ← take_at dd end_idxs;
  Returned (b_states_t, b_states_tp1, b_actions, b_rewards, b_dones).

(** *** Predicates of the statements below *)

(** The arrays are allocated, with [n] slots each. *)
Definition allocated (n : Z) (self : t) : Prop :=
  initialized self = true /\
  exists ss aa rr dd,
    states self = Some ss /\ actions self = Some aa /\
    rewards self = Some rr /\ dones self = Some dd /\
    len ss = n /\ len aa = n /\ len rr = n /\ len dd = n.

(** The buffer holds the last [n] of the transitions [ts] added so far: the
    [j]-th of them in slot [j mod n]. *)
Definition holds_last (n : Z) (ts : list transition)
  (self : t) : Prop :=
  maxlen self = n /\
  current_idx self = len ts mod n /\
  current_len self = Z.min (len ts) n /\
  forall (j : nat) tr,
    ts !! j = Some tr -> len ts - n <= Z.of_nat j ->
    slot self (Z.to_nat (Z.of_nat j mod n)) = Some (as_stored tr).

(** The [done] flag stored at index [i], if the array exists and has it. *)
Definition done_at (self : t) (i : Z) : option bool :=
  dd ← dones self; dd !! Z.to_nat i.

(** No transition strictly inside the window that starts at [start_idx]
    (every index of it but the last, [end_idx - 1]) has [done = true]. *)
Definition no_internal_done (self : t) (start_idx : Z) : Prop :=
  forall i, start_idx <= i < start_idx + history_length self - 1 ->
            done_at self i <> Some true.

(** Some transition strictly inside the window that starts at [start_idx]
    has [done = true]: stacking the window would cross an episode boundary. *)
Definition has_internal_done (self : t) (start_idx : Z) : Prop :=
  exists i, start_idx <= i < start_idx + history_length self - 1 /\
            done_at self i = Some true.

(** What the loop of [_generate_idxs] maintains about the indices picked so
    far. *)
Definition picked_ok (self : t) (start_idxs end_idxs : list Z) : Prop :=
  NoDup start_idxs /\
  Forall (fun s => 0 <= s < current_len self - history_length self) start_idxs /\
  end_idxs = map (fun s => s + history_length self) start_idxs /\
  Forall (no_internal_done self) start_idxs /\
  len start_idxs <= Z.max 0 (batch_size self).

End ReplayBuffer.
Arguments t : clear implicits.
Arguments batch : clear implicits.
Arguments transition : clear implicits.
End ReplayBuffer.

(** *** Buffers of integers

    Concrete buffers for the examples: states, actions and rewards are
    integers, stored as they are, and [np.empty] hands back zeros. *)

Definition int_add_all (ts : list (ReplayBuffer.transition Z Z Z))
  : ReplayBuffer.t Z Z Z -> ReplayBuffer.t Z Z Z * outcome unit :=
  ReplayBuffer.add_all (fun s => s) (fun a => a) (fun r => r)
    (fun _ => 0) (fun _ => 0) (fun _ => 0) (fun _ => false) ts.

(** The transitions of a run whose [done] flags are [dones]: the state of
    the [i]-th one is [i]; actions and rewards are 0. *)
Definition run_of (dones : list bool) : list (ReplayBuffer.transition Z Z Z) :=
  imap (fun i done => (Z.of_nat i, 0, 0, done)) dones.

(** The buffer after that run has been added to a fresh one. *)
Definition buffer_after (maxlen history_length batch_size : Z) (dones : list bool)
  : ReplayBuffer.t Z Z Z :=
  fst (int_add_all (run_of dones)
         (ReplayBuffer.__init__ maxlen history_length batch_size)).

(** ** Epsilon-greedy action selection *)

(** A NumPy array of Q-values: its shape and its elements in row-major
    order.  Q-values, [epsilon] and the draw of [np.random.random()] are
    finite floats; they are only compared, so rationals model them exactly. *)
Record ndarray : Type := mk_ndarray {
  shape : list nat;
  flat : list Q
}.

(** The one-dimensional array of the given elements. *)
Definition np_array (l : list Q) : ndarray := mk_ndarray [length l] l.

(** [np.squeeze(a)] drops every axis of length one. *)
Definition np_squeeze (a : ndarray) : ndarray :=
  mk_ndarray (List.filter (fun d => negb (Nat.eqb d 1)) (shape a)) (flat a).

(** [len(a)]: the length of the first axis; an array with no axis has none. *)
Definition np_len (a : ndarray) : outcome Z :=
  match shape a with
  | [] => Raised TypeError
  | d :: _ => Returned (Z.of_nat d)
  end.

(** The scan behind [np.argmax]: the current best value and its index, then
    the rest of the elements from index [i] on.  Only a strictly greater
    element replaces the best one. *)
Fixpoint argmax_from (best : Q) (best_i : Z) (i : Z) (l : list Q) : Z :=
  match l with
  | [] => best_i
  | x :: l' =>
      if Qle_bool x best then argmax_from best best_i (i + 1) l'
      else argmax_from x i (i + 1) l'
  end.

(** [np.argmax(a)]: the index, in the flattened array, of the first maximal
    element; an empty array is refused. *)
Definition np_argmax (a : ndarray) : outcome Z :=
  match flat a with
  | [] => Raised ValueError
  | x :: l => Returned (argmax_from x 0 1 l)
  end.

(** [np.arange(n)]. *)
Definition np_arange (n : Z) : list Z := map Z.of_nat (seq 0 (Z.to_nat n)).

(** [np.random.choice(a)] for a one-dimensional [a], chosen by the raw draw [r]. *)
Definition random_choice (a : list Z) (r : Z) : outcome Z :=
  match a with
  | [] => Raised ValueError
  | _ => py_index a (r mod len a)
  end.

(** [u] is the value of [np.random.random()], a float of [[0, 1)]; [r] is the
    raw draw behind [np.random.choice]. *)
Definition egreedy_police (Q_values : ndarray) (epsilon : Q) (u : Q) (r : Z) : outcome Z :=
  if Qle_bool u epsilon then
    num_actions ← np_len (np_squeeze Q_values);
    random_choice (np_arange num_actions) r
  else
    np_argmax (np_squeeze Q_values).

(** [i] is the index of the first maximal element of [l]. *)
Definition first_argmax (l : list Q) (i : Z) : Prop :=
  exists x, l !! Z.to_nat i = Some x /\ 0 <= i /\
    (forall j y, l !! j = Some y -> (y <= x)%Q) /\
    (forall j y, l !! j = Some y -> (j < Z.to_nat i)%nat -> (y < x)%Q).

(** ** Numbers *)

(** The schedules and the discounted sum are written once for any Python
    numeric type: the operations they use and the literal [0]. *)
Class Number (A : Type) : Type := {
  num_zero : A;
  num_add : A -> A -> A;
  num_sub : A -> A -> A;
  num_mul : A -> A -> A;
  num_neg : A -> A;
  num_div : A -> A -> outcome A;
  num_le : A -> A -> bool
}.

(** Exact rational arithmetic ([fractions.Fraction]). *)
#[global] Instance Q_number : Number Q := {|
  num_zero := 0%Q;
  num_add := Qplus;
  num_sub := Qminus;
  num_mul := Qmult;
  num_neg := Qopp;
  num_div := fun x y =>
    if Qeq_bool y 0 then Raised ZeroDivisionError else Returned (x / y)%Q;
  num_le := Qle_bool
|}.

(** IEEE 754 binary64 arithmetic ([float]). *)
#[global] Instance float_number : Number float := {|
  num_zero := 0%float;
  num_add := PrimFloat.add;
  num_sub := PrimFloat.sub;
  num_mul := PrimFloat.mul;
  num_neg := PrimFloat.opp;
  num_div := fun x y =>
    if PrimFloat.eqb y 0%float then Raised ZeroDivisionError
    else Returned (PrimFloat.div x y);
  num_le := PrimFloat.leb
|}.

(** ** Schedules *)

Section Schedules.
Context {A : Type} `{Number A}.

(** The loop of [get_epsilon] over the zipped segments
    [(boundary, x0, m, y0)], and the value returned when it falls through. *)
Fixpoint scan_segments (segments : list (A * A * A * A)) (x : A) (outside : A) : A :=
  match segments with
  | [] => outside
  | (boundary, x0, m, y0) :: rest =>
      if num_le x boundary then num_add (num_mul m (num_sub x x0)) y0
      else scan_segments rest x outside
  end.

(** The closure [get_epsilon] with the three lists it captures.
    [final_epsilons] is never empty, so [final_epsilons[-1]] exists. *)
Definition get_epsilon (boundaries decay_rates final_epsilons : list A) (x : A) : A :=
  scan_segments
    (zip (zip (zip (tail boundaries) (removelast boundaries)) decay_rates) final_epsilons)
    x
    (List.last final_epsilons num_zero).

(** [decay_steps]: the length of each segment. *)
Definition decay_steps_of (boundaries : list A) : list A :=
  map (fun '(start_step, end_step) => num_sub end_step start_step)
      (zip (removelast boundaries) (tail boundaries)).

(** [decay_rates]: the slope of each segment; the first empty segment makes
    the division raise. *)
Definition decay_rates_of (final_epsilons decay_steps : list A) : outcome (list A) :=
  mapM (fun '(start_e, final_e, decay_step) =>
          num_div (num_neg (num_sub start_e final_e)) decay_step)
       (zip (zip (removelast final_epsilons) (tail final_epsilons)) decay_steps).

Definition piecewise_linear_decay (boundaries values : list A) (initial_value : A)
  : outcome (A -> A) :=
  let boundaries := num_zero :: boundaries in
  let final_epsilons := map (fun value => num_mul initial_value value) values in
  let final_epsilons := initial_value :: final_epsilons in
  let decay_steps := decay_steps_of boundaries in
  decay_rates ← decay_rates_of final_epsilons decay_steps;
  Returned (get_epsilon boundaries decay_rates final_epsilons).

(** ** Discounted returns *)

Definition discounted_sum_rewards (rewards : list A) (gamma : A) : list A :=
  let '(_, discounted_rewards) :=
    fold_left
      (fun '(reward_sum, discounted_rewards) reward =>
         let reward_sum := num_add reward (num_mul gamma reward_sum) in
         (reward_sum, discounted_rewards ++ [reward_sum]))
      (rev rewards) (num_zero, []) in
  rev discounted_rewards.

(** The returns as the specification words them: [G_t = r_t + gamma *
    G_{t+1}], with [G_n = 0] past the end. *)
Fixpoint returns_spec (gamma : A) (rewards : list A) : list A :=
  match rewards with
  | [] => []
  | r :: rest =>
      let G := returns_spec gamma rest in
      num_add r (num_mul gamma (hd num_zero G)) :: G
  end.

End Schedules.


(** Boundaries in strictly increasing order. *)
Fixpoint strictly_increasing (boundaries : list Q) : Prop :=
  match boundaries with
  | [] => True
  | b :: rest =>
      match rest with
      | [] => True
      | b' :: _ => (b < b')%Q /\ strictly_increasing rest
      end
  end.

(** ** Linear schedule *)

Section LinearDecay.
Context {A : Type} `{Number A}.

(** The source default is [epsilon_start=1]; the list [epsilon_steps] it
    creates is never used. *)
Definition linear_decay (epsilon_final stop_exploration epsilon_start : A)
  : outcome (A -> A) :=
  epsilon_step ←
    num_div (num_neg (num_sub epsilon_start epsilon_final)) stop_exploration;
  Returned (fun step =>
              if num_le step stop_exploration
              then num_add (num_mul epsilon_step step) epsilon_start
              else epsilon_final).

End LinearDecay.

(** ** The discounted return in closed form *)

(** [gamma^k * r_0 + gamma^(k+1) * r_1 + ...] over the rewards given. *)
Fixpoint power_sum (gamma : Q) (k : nat) (rewards : list Q) : Q :=
  match rewards with
  | [] => 0%Q
  | r :: rest => (gamma ^ Z.of_nat k * r + power_sum gamma (S k) rest)%Q
  end.

(** ** DQNAgent.select_action *)

Module DQNAgent.
Section DQNAgent.
(** The parts of the agent that live outside this file are parameters: the
    history buffer [states_history] with its [append], which updates the
    buffer in place and may raise, and its [get_data]; the exploration
    schedule set by [train]; and the model's [predict] on the stacked history
    with a batch axis added. *)
Context {History Observation Stacked : Type}.
Variable history_append : History -> Observation -> History * outcome unit.
Variable history_get_data : History -> Stacked.
Variable exploration_schedule : Z -> Q.
Variable predict : Stacked -> outcome ndarray.

Record t : Type := mk {
  states_history : History;
  i_step : Z;
  epsilon : Q;
  num_actions : Z
}.

(** [u] is the value of [np.random.random()] and [r] the raw draw behind
    [np.random.choice(num_actions)], which chooses from
    [np.arange(num_actions)]. *)
Definition select_action (self : t) (state : Observation) (u : Q) (r : Z)
  : t * outcome Z :=
  let '(history, appended) := history_append (states_history self) state in
  match appended with
  | Returned _ =>
      let state_hist := history_get_data history in
      let self' := mk history (i_step self)
                      (exploration_schedule (i_step self)) (num_actions self) in
      if Qle_bool u (epsilon self')
      then (self', random_choice (np_arange (num_actions self')) r)
      else (self', Q_values ← predict state_hist; np_argmax Q_values)
  | Raised e => (mk history (i_step self) (epsilon self) (num_actions self), Raised e)
  | Pending => (mk history (i_step self) (epsilon self) (num_actions self), Pending)
  end.

End DQNAgent.
Arguments t : clear implicits.
End DQNAgent.

(** * Properties *)

(** ** Lists and indices *)

Lemma len_app {A : Type} (l1 l2 : list A) : len (l1 ++ l2) = len l1 + len l2.
Proof. unfold len. rewrite length_app. lia. Qed.

Lemma len_nonneg {A : Type} (l : list A) : 0 <= len l.
Proof. unfold len. lia. Qed.

Lemma np_roll_back_one {A : Type} (x : A) (l : list A) :
  np_roll (x :: l) (-1) = l ++ [x].
Proof.
  unfold np_roll, len. simpl length.
  destruct (Z.eqb_spec (Z.of_nat (S (length l))) 0) as [E|_]; [lia|].
  destruct l as [|y l].
  - reflexivity.
  - replace (Z.to_nat (- -1 mod Z.of_nat (S (length (y :: l))))) with 1%nat.
    + reflexivity.
    + simpl length. rewrite Z.mod_small by lia. reflexivity.
Qed.

Lemma py_setitem_last {A : Type} (l : list A) (x y : A) :
  py_setitem (l ++ [x]) (len l) y = Returned (l ++ [y]).
Proof.
  unfold py_setitem, py_norm. rewrite len_app. pose proof (len_nonneg l) as Hl.
  change (len [x]) with 1.
  destruct (Z.ltb_spec (len l) 0); [lia|].
  destruct (Z.leb_spec 0 (len l)); [|lia].
  destruct (Z.ltb_spec (len l) (len l + 1)); [|lia].
  simpl. f_equal. unfold len. rewrite Nat2Z.id.
  rewrite insert_app_r_alt by lia. rewrite Nat.sub_diag. reflexivity.
Qed.

(** ** RingBuffer *)

Section RingBufferFacts.
Context {Shape Frame : Type}.
Variable np_zeros : Shape -> Frame.
Variable np_squeeze : Frame -> Frame.
Import RingBuffer.

(** One [append] on a well-formed buffer: the window loses its slot 0 and
    gains the squeezed frame at the end. *)
Lemma append_returns (self : t Shape Frame) (x : Frame) :
  wf self -> 0 < maxlen self ->
  append np_squeeze self x =
    Returned (mk (state_shape self) (maxlen self) (current_idx self)
                 (drop 1 (data self) ++ [np_squeeze x])).
Proof.
  unfold wf, append. intros Hwf Hpos.
  destruct (data self) as [|d l] eqn:E.
  - unfold len in Hwf. simpl in Hwf. lia.
  - rewrite np_roll_back_one.
    replace (maxlen self - 1) with (len l) by (unfold len in *; simpl length in Hwf; lia).
    rewrite py_setitem_last. reflexivity.
Qed.

(** After any number of appends the window is the last [maxlen] entries of
    the old window followed by the appended frames. *)
Lemma append_all_returns (xs : list Frame) : forall self : t Shape Frame,
  wf self -> 0 < maxlen self ->
  append_all np_squeeze self xs =
    Returned (mk (state_shape self) (maxlen self) (current_idx self)
                 (drop (length xs) (data self ++ map np_squeeze xs))).
Proof.
  induction xs as [|x xs IH]; intros self Hwf Hpos.
  - simpl. rewrite app_nil_r. destruct self; reflexivity.
  - simpl append_all. rewrite append_returns by assumption.
    change (mbind ?f (Returned ?a)) with (f a). cbv beta.
    rewrite IH.
    + simpl. do 2 f_equal.
      rewrite <- app_assoc. simpl app.
      destruct (data self) as [|d l] eqn:E.
      * unfold wf, len in Hwf. rewrite E in Hwf. simpl in Hwf. lia.
      * reflexivity.
    + unfold wf in *. simpl. rewrite len_app. unfold len in *.
      rewrite length_drop. simpl length. lia.
    + simpl. assumption.
Qed.

Lemma reset_returns (self : t Shape Frame) :
  0 <= maxlen self ->
  reset np_zeros self =
    Returned (mk (state_shape self) (maxlen self) (current_idx self)
                 (replicate (Z.to_nat (maxlen self)) (np_zeros (state_shape self)))).
Proof.
  intros Hpos. unfold reset.
  destruct (Z.ltb_spec (maxlen self) 0); [lia|reflexivity].
Qed.

(** C9 (as amended).  On a well-formed buffer of [maxlen >= 1] slots,
    appending [maxlen] states [xs] leaves exactly those states, squeezed, in
    the window in order of arrival: whatever the window held before is
    evicted, the oldest appended state sits in slot 0 (it is still stored)
    and the newest in slot [maxlen - 1].  Every single [append] moves each
    stored state one slot back and installs the new state in slot
    [maxlen - 1]; it is the next, [maxlen + 1]-th, append that evicts the
    oldest appended state; and [reset] restores a window of zeros. *)
Theorem ring_buffer_fill (self : t Shape Frame) (xs : list Frame) :
  wf self -> 0 < maxlen self -> len xs = maxlen self ->
  exists self',
    append_all np_squeeze self xs = Returned self' /\
    data self' = map np_squeeze xs /\
    data self' !! 0%nat = np_squeeze <$> head xs /\
    data self' !! Z.to_nat (maxlen self - 1) = np_squeeze <$> last xs /\
    (forall x, exists self1,
        append np_squeeze self x = Returned self1 /\
        (forall i, (i + 1 < length (data self))%nat ->
                   data self1 !! i = data self !! (i + 1)%nat) /\
        data self1 !! Z.to_nat (maxlen self - 1) = Some (np_squeeze x)) /\
    (forall x, exists self2,
        append np_squeeze self' x = Returned self2 /\
        data self2 = map np_squeeze (drop 1 xs ++ [x])) /\
    (exists self0,
        reset np_zeros self' = Returned self0 /\
        data self0 = replicate (Z.to_nat (maxlen self)) (np_zeros (state_shape self))).
Proof.
  intros Hwf Hpos Hlen.
  assert (Hxs : length xs = length (data self))
    by (unfold wf, len in *; lia).
  eexists. split; [apply append_all_returns; assumption|].
  simpl data. rewrite Hxs, drop_app_length.
  split; [reflexivity|].
  split; [destruct xs; reflexivity|].
  split.
  { rewrite list_lookup_fmap. f_equal.
    rewrite last_lookup. f_equal. unfold len in Hlen. lia. }
  split.
  { intros x. eexists. split; [apply append_returns; assumption|].
    simpl data. split.
    - intros i Hi. rewrite lookup_app_l by (rewrite length_drop; lia).
      rewrite lookup_drop. f_equal. lia.
    - rewrite lookup_app_r by (rewrite length_drop; unfold wf, len in Hwf; lia).
      rewrite length_drop.
      replace (Z.to_nat (maxlen self - 1) - (length (data self) - 1))%nat with 0%nat
        by (unfold wf, len in Hwf; lia).
      reflexivity. }
  split.
  { intros x. eexists. split.
    - apply append_returns; unfold wf; simpl.
      + unfold len in *. rewrite length_map. lia.
      + assumption.
    - simpl data. rewrite map_app, skipn_map. reflexivity. }
  eexists. split; [apply reset_returns; simpl; lia|reflexivity].
Qed.

End RingBufferFacts.

(** The statement of [ring_buffer_fill] on a window of two integer frames. *)
Lemma ring_buffer_fill_witness :
  exists self',
    RingBuffer.append_all (fun x : Z => x) (RingBuffer.mk tt 2 0 [0; 0]) [7; 9]
      = Returned self' /\
    RingBuffer.data self' = [7; 9].
Proof.
  destruct (ring_buffer_fill (fun _ : unit => 0) (fun x : Z => x)
              (RingBuffer.mk tt 2 0 [0; 0]) [7; 9])
    as (self' & Hrun & Hdata & _).
  - reflexivity.
  - reflexivity.
  - reflexivity.
  - exists self'. split; assumption.
Defined.

(** C9 (as stated) fails: after [maxlen = 2] appends of the distinct states
    7 and 9 to a fresh buffer, the oldest of them, 7, is still in the window
    (slot 0); it has not been evicted. *)
Lemma ring_buffer_oldest_not_evicted :
  (rb ← RingBuffer.__init__ (fun _ : unit => 0) tt 2;
   rb' ← RingBuffer.append_all (fun x : Z => x) rb [7; 9];
   Returned (RingBuffer.data rb'))
  = Returned [7; 9].
Proof. reflexivity. Qed.

(** ** ReplayBuffer: [add] *)

Lemma py_setitem_in_range {A : Type} (l : list A) (i : Z) (x : A) :
  0 <= i < len l -> py_setitem l i x = Returned (<[Z.to_nat i := x]> l).
Proof.
  intros Hi. unfold py_setitem, py_norm.
  destruct (Z.ltb_spec i 0); [lia|].
  destruct (Z.leb_spec 0 i); [|lia].
  destruct (Z.ltb_spec i (len l)); [|lia].
  reflexivity.
Qed.

Lemma mod_distinct (j k n : Z) :
  0 <= j < k -> k - j < n -> Z.to_nat (j mod n) <> Z.to_nat (k mod n).
Proof.
  intros Hjk Hn Heq.
  assert (Hj := Z.mod_pos_bound j n ltac:(lia)).
  assert (Hk := Z.mod_pos_bound k n ltac:(lia)).
  assert (E : j mod n = k mod n) by lia.
  assert (D : (k - j) mod n = 0) by (rewrite Zminus_mod, E, Z.sub_diag; apply Zmod_0_l).
  rewrite Z.mod_small in D by lia. lia.
Qed.

Section ReplayBufferFacts.
Context {State Action Reward : Type}.
Variable np_squeeze : State -> State.
Variable as_int32 : Action -> Action.
Variable as_float32 : Reward -> Reward.
Variable junk_states : nat -> State.
Variable junk_actions : nat -> Action.
Variable junk_rewards : nat -> Reward.
Variable junk_dones : nat -> bool.
Import ReplayBuffer.

Abbreviation buffer := (t State Action Reward).
Abbreviation add := (add np_squeeze as_int32 as_float32
                     junk_states junk_actions junk_rewards junk_dones).
Abbreviation add_all := (add_all np_squeeze as_int32 as_float32
                             junk_states junk_actions junk_rewards junk_dones).
Abbreviation as_stored := (as_stored np_squeeze as_int32 as_float32).
Abbreviation holds_last := (holds_last np_squeeze as_int32 as_float32).

Lemma length_np_empty {A : Type} (n : nat) (junk : nat -> A) :
  length (np_empty n junk) = n.
Proof. unfold np_empty. rewrite length_map, length_seq. reflexivity. Qed.

(** [add] on a buffer whose arrays are allocated and whose write position is
    in range: the four values go to slot [current_idx], the position moves on
    circularly and the length grows up to [maxlen]. *)
Lemma add_allocated (self : buffer) ss aa rr dd s a r d :
  initialized self = true ->
  states self = Some ss -> actions self = Some aa ->
  rewards self = Some rr -> dones self = Some dd ->
  len ss = maxlen self -> len aa = maxlen self ->
  len rr = maxlen self -> len dd = maxlen self ->
  0 <= current_idx self < maxlen self ->
  add s a r d self =
    (mk true (maxlen self) (history_length self) (batch_size self)
        ((current_idx self + 1) mod maxlen self)
        (Z.min (current_len self + 1) (maxlen self))
        (Some (<[Z.to_nat (current_idx self) := np_squeeze s]> ss))
        (Some (<[Z.to_nat (current_idx self) := as_int32 a]> aa))
        (Some (<[Z.to_nat (current_idx self) := as_float32 r]> rr))
        (Some (<[Z.to_nat (current_idx self) := d]> dd)),
     Returned tt).
Proof.
  destruct self as [ini n h b idx cl oss oaa orr odd]. simpl.
  intros -> -> -> -> -> Hss Haa Hrr Hdd Hidx.
  unfold ReplayBuffer.add, andthen, allocate, store_state, store_action,
    store_reward, store_done, advance.
  repeat first
    [ rewrite py_setitem_in_range by (cbn; lia)
    | progress cbn [mbind outcome_bind getattr initialized maxlen history_length
                    batch_size current_idx current_len states actions rewards dones] ].
  destruct (Z.eqb_spec n 0); [lia|]. reflexivity.
Qed.

(** The first [add] on a fresh buffer allocates the arrays. *)
Lemma allocate_fresh (n h b : Z) :
  0 <= n ->
  allocate junk_states junk_actions junk_rewards junk_dones (__init__ n h b) =
    (mk true n h b 0 0
        (Some (np_empty (Z.to_nat n) junk_states))
        (Some (np_empty (Z.to_nat n) junk_actions))
        (Some (np_empty (Z.to_nat n) junk_rewards))
        (Some (np_empty (Z.to_nat n) junk_dones)),
     Returned tt).
Proof.
  intros Hn. unfold allocate, __init__. simpl.
  destruct (Z.ltb_spec n 0); [lia|]. reflexivity.
Qed.

Lemma allocate_initialized (self : buffer) :
  initialized self = true ->
  allocate junk_states junk_actions junk_rewards junk_dones self = (self, Returned tt).
Proof. intros Hi. unfold allocate. rewrite Hi. reflexivity. Qed.

(** Reading a slot of allocated arrays. *)
Lemma slot_allocated ini n h b idx cl
  (ss : list State) (aa : list Action) (rr : list Reward) (dd : list bool) (i : nat) :
  slot (mk ini n h b idx cl (Some ss) (Some aa) (Some rr) (Some dd)) i =
    (s ← ss !! i; a ← aa !! i; r ← rr !! i; d ← dd !! i; Some (s, a, r, d)).
Proof. reflexivity. Qed.

(** One more [add] keeps the arrays allocated and the last [n] transitions
    in place, and leaves the sampling parameters alone. *)
Lemma add_step (n : Z) ts (self : buffer) s a r d :
  0 < n -> allocated n self -> holds_last n ts self ->
  exists self',
    add s a r d self = (self', Returned tt) /\
    allocated n self' /\ holds_last n (ts ++ [(s, a, r, d)]) self' /\
    history_length self' = history_length self /\
    batch_size self' = batch_size self.
Proof.
  intros Hn (Hini & ss & aa & rr & dd & Hss & Haa & Hrr & Hdd & Ls & La & Lr & Ld)
         (Hmax & Hidx & Hlen & Hslots).
  assert (Hk := Z.mod_pos_bound (len ts) n Hn).
  eexists. split.
  { eapply add_allocated; eauto; lia. }
  rewrite Hmax, Hidx, Hlen.
  split.
  { split; [reflexivity|]. do 4 eexists. cbn.
    repeat split; unfold len in *; rewrite length_insert; assumption. }
  split; [|split; reflexivity].
  split; [reflexivity|]. cbn [current_idx current_len].
  rewrite len_app. change (len [(s, a, r, d)]) with 1.
  split; [apply Z.add_mod_idemp_l; lia|]. split; [lia|].
  intros j tr Hj Hrecent.
  rewrite slot_allocated.
  destruct (decide (j = length ts)) as [->|Hne].
  - rewrite list_lookup_middle in Hj by reflexivity. injection Hj as <-.
    fold (len ts).
    rewrite !list_lookup_insert_eq by (unfold len in *; lia).
    reflexivity.
  - assert (Hlt : (j < length ts)%nat).
    { apply lookup_lt_Some in Hj. rewrite length_app in Hj. simpl in Hj. lia. }
    rewrite lookup_app_l in Hj by assumption.
    assert (Hd : Z.to_nat (len ts mod n) <> Z.to_nat (Z.of_nat j mod n)).
    { intros E. symmetry in E. revert E. apply mod_distinct; unfold len in *; lia. }
    rewrite !list_lookup_insert_ne by assumption.
    specialize (Hslots j tr Hj ltac:(unfold len in *; lia)).
    destruct self as [ini n' h b idx cl oss oaa orr odd]. simpl in *. subst.
    rewrite slot_allocated in Hslots. exact Hslots.
Qed.

(** Any further sequence of [add] calls returns normally. *)
Lemma add_all_step (n : Z) ts2 : forall ts1 (self : buffer),
  0 < n -> allocated n self -> holds_last n ts1 self ->
  exists self',
    add_all ts2 self = (self', Returned tt) /\
    allocated n self' /\ holds_last n (ts1 ++ ts2) self' /\
    history_length self' = history_length self /\
    batch_size self' = batch_size self.
Proof.
  induction ts2 as [|[[[s a] r] d] ts2 IH]; intros ts1 self Hn Hal Hh.
  - exists self. rewrite app_nil_r.
    split; [reflexivity|]. split; [assumption|]. split; [assumption|].
    split; reflexivity.
  - destruct (add_step n ts1 self s a r d Hn Hal Hh)
      as (self1 & Hadd & Hal1 & Hh1 & Hhist1 & Hbatch1).
    destruct (IH (ts1 ++ [(s, a, r, d)]) self1 Hn Hal1 Hh1)
      as (self' & Hrun & Hal' & Hh' & Hhist' & Hbatch').
    exists self'. cbn [ReplayBuffer.add_all]. unfold andthen. rewrite Hadd.
    rewrite <- app_assoc in Hh'.
    split; [assumption|]. split; [assumption|]. split; [assumption|].
    split; congruence.
Qed.

(** The first [add] on a fresh buffer behaves as an [add] on the buffer with
    its arrays just allocated. *)
Lemma add_fresh (n h b : Z) s a r d :
  0 <= n ->
  add s a r d (__init__ n h b) =
  add s a r d (mk true n h b 0 0
                  (Some (np_empty (Z.to_nat n) junk_states))
                  (Some (np_empty (Z.to_nat n) junk_actions))
                  (Some (np_empty (Z.to_nat n) junk_rewards))
                  (Some (np_empty (Z.to_nat n) junk_dones))).
Proof.
  intros Hn. unfold ReplayBuffer.add. unfold andthen at 1 6.
  rewrite allocate_fresh by assumption.
  rewrite allocate_initialized by reflexivity. reflexivity.
Qed.

(** C8.  On a buffer constructed with capacity [maxlen >= 1], every sequence
    of [k] calls of [add] returns normally and leaves [current_idx = k mod
    maxlen] and [current_len = min(k, maxlen)]; the capacity and the sampling
    parameters are unchanged, and the arrays hold the last [min(k, maxlen)]
    transitions, the [j]-th one (counted from 0) in slot [j mod maxlen]: once
    the buffer is full each write lands on the oldest stored transition. *)
Theorem replay_buffer_add_wraps (n h b : Z) (ts : list (transition State Action Reward)) :
  0 < n ->
  exists self',
    add_all ts (__init__ n h b) = (self', Returned tt) /\
    current_idx self' = len ts mod n /\
    current_len self' = Z.min (len ts) n /\
    maxlen self' = n /\
    history_length self' = h /\
    batch_size self' = b /\
    forall (j : nat) tr,
      ts !! j = Some tr -> len ts - n <= Z.of_nat j ->
      slot self' (Z.to_nat (Z.of_nat j mod n)) = Some (as_stored tr).
Proof.
  intros Hn. destruct ts as [|[[[s a] r] d] ts].
  - exists (__init__ n h b). cbn.
    repeat split; try reflexivity; try (unfold len; simpl; lia).
    intros j tr Hj. discriminate Hj.
  - set (self0 := mk true n h b 0 0
                    (Some (np_empty (Z.to_nat n) junk_states))
                    (Some (np_empty (Z.to_nat n) junk_actions))
                    (Some (np_empty (Z.to_nat n) junk_rewards))
                    (Some (np_empty (Z.to_nat n) junk_dones))).
    assert (Hal0 : allocated n self0).
    { split; [reflexivity|]. do 4 eexists. cbn.
      repeat split; unfold len; rewrite length_np_empty; lia. }
    assert (Hh0 : holds_last n [] self0).
    { repeat split; cbn; try reflexivity; try (unfold len; simpl; lia).
      intros j tr Hj. discriminate Hj. }
    destruct (add_all_step n ((s, a, r, d) :: ts) [] self0 Hn Hal0 Hh0)
      as (self' & Hrun & _ & (Hmax & Hidx & Hlen & Hslots) & Hhist & Hbatch).
    exists self'. split.
    { cbn [ReplayBuffer.add_all] in *. unfold andthen in *.
      rewrite add_fresh by lia. exact Hrun. }
    cbn [app] in *. repeat split; assumption.
Qed.

(** ** ReplayBuffer: [sample] *)

Lemma slice_has_true (dd : list bool) (lo hi i : Z) :
  0 <= lo -> lo <= i < hi -> dd !! Z.to_nat i = Some true ->
  np_any (py_slice dd lo hi) = true.
Proof.
  intros Hlo Hi Hdd.
  assert (Hin : i < len dd).
  { apply lookup_lt_Some in Hdd. unfold len. lia. }
  unfold np_any. apply existsb_exists. exists true. split; [|reflexivity].
  apply list_elem_of_In, list_elem_of_lookup.
  exists (Z.to_nat (i - lo)).
  unfold py_slice, py_clamp, py_norm.
  destruct (Z.ltb_spec lo 0); [lia|].
  destruct (Z.ltb_spec hi 0); [lia|].
  rewrite lookup_take_lt by lia.
  rewrite lookup_drop. rewrite <- Hdd. f_equal. lia.
Qed.

Lemma slice_without_true (dd : list bool) (lo hi i : Z) :
  0 <= lo -> np_any (py_slice dd lo hi) = false ->
  lo <= i < hi -> dd !! Z.to_nat i <> Some true.
Proof.
  intros Hlo Hany Hi Hdd.
  rewrite (slice_has_true dd lo hi i) in Hany by assumption. discriminate.
Qed.

(** The loop only ever returns lists that satisfy [picked_ok], and it
    returns once it holds [batch_size] indices. *)
Lemma generate_loop_sound (self : buffer) (draws : list Z) :
  forall start_idxs end_idxs start_idxs' end_idxs',
    generate_loop self draws start_idxs end_idxs = Returned (start_idxs', end_idxs') ->
    picked_ok self start_idxs end_idxs ->
    picked_ok self start_idxs' end_idxs' /\
    len start_idxs' = Z.max 0 (batch_size self).
Proof.
  induction draws as [|r draws IH]; intros starts ends starts' ends' Hrun Hok.
  - cbn [generate_loop] in Hrun.
    destruct (Z.ltb_spec (len starts) (batch_size self)); cbn [negb] in Hrun.
    + unfold randint in Hrun. destruct (_ <=? 0); discriminate Hrun.
    + injection Hrun as <- <-. split; [assumption|].
      destruct Hok as (_ & _ & _ & _ & Hle). pose proof (len_nonneg starts). lia.
  - cbn [generate_loop] in Hrun.
    destruct (Z.ltb_spec (len starts) (batch_size self)); cbn [negb] in Hrun.
    2:{ injection Hrun as <- <-. split; [assumption|].
        destruct Hok as (_ & _ & _ & _ & Hle). pose proof (len_nonneg starts). lia. }
    unfold randint in Hrun.
    destruct (Z.leb_spec (current_len self - history_length self) 0) as [|Hhigh];
      [discriminate Hrun|].
    cbn [mbind outcome_bind] in Hrun.
    rewrite Z.sub_0_r, Z.add_0_l in Hrun.
    set (start_idx := r mod (current_len self - history_length self)) in *.
    assert (Hrange : 0 <= start_idx < current_len self - history_length self)
      by (apply Z.mod_pos_bound; lia).
    destruct (bool_decide_reflect (start_idx ∈ starts)) as [|Hnew].
    { eapply IH; eassumption. }
    destruct (dones self) as [dd|] eqn:Hdd; [|discriminate Hrun].
    cbn [getattr mbind outcome_bind] in Hrun.
    destruct (np_any _) eqn:Hany.
    { eapply IH; eassumption. }
    eapply IH; [eassumption|].
    destruct Hok as (Hnd & Hin & Hends & Hclean & Hle).
    repeat split.
    + apply NoDup_app. repeat split; [assumption| |apply NoDup_singleton].
      intros x Hx Hx'. apply list_elem_of_singleton in Hx'. congruence.
    + apply Forall_app. split; [assumption|]. repeat constructor; lia.
    + rewrite map_app, Hends. reflexivity.
    + apply Forall_app. split; [assumption|]. repeat constructor.
      intros i Hi. unfold done_at. rewrite Hdd. cbn.
      eapply slice_without_true; [|exact Hany|]; lia.
    + rewrite len_app. change (len [start_idx]) with 1. lia.
Qed.

Lemma picked_ok_nil (self : buffer) : picked_ok self [] [].
Proof.
  repeat split; try constructor. unfold len. simpl. lia.
Qed.

Lemma generate_idxs_sound (self : buffer) (draws start_idxs end_idxs : list Z) :
  _generate_idxs self draws = Returned (start_idxs, end_idxs) ->
  picked_ok self start_idxs end_idxs /\
  len start_idxs = Z.max 0 (batch_size self).
Proof.
  intros Hrun. eapply generate_loop_sound; [exact Hrun|apply picked_ok_nil].
Qed.

Lemma mapM_returned {X Y : Type} (g : X -> outcome Y) (h : X -> Y) (l : list X) :
  (forall x, g x = Returned (h x)) -> mapM g l = Returned (map h l).
Proof.
  intros Hg. induction l as [|x l IH]; [reflexivity|].
  cbn [mapM map]. rewrite Hg, IH. reflexivity.
Qed.

(** A batch returned by [sample] is built from the indices
    [_generate_idxs] returned, and there is at least one of them. *)
Lemma sample_returned (self : buffer) (draws : list Z) b_t b_tp1 b_a b_r b_d :
  sample self draws = Returned (b_t, b_tp1, b_a, b_r, b_d) ->
  exists start_idxs end_idxs ss,
    _generate_idxs self draws = Returned (start_idxs, end_idxs) /\
    start_idxs <> [] /\
    states self = Some ss /\
    b_t = map (fun '(start_idx, end_idx) => py_slice ss start_idx end_idx)
              (zip start_idxs end_idxs).
Proof.
  unfold sample.
  destruct (_generate_idxs self draws) as [[starts ends]|e|] eqn:Hgen;
    cbn [mbind outcome_bind]; [|discriminate..].
  pose proof (generate_idxs_sound _ _ _ _ Hgen) as ((_ & _ & Hends & _) & _).
  destruct starts as [|s0 starts].
  - subst ends. cbn [map zip zip_with mapM mret outcome_ret mbind outcome_bind].
    destruct (actions self); cbn [getattr take_at mbind outcome_bind]; discriminate.
  - destruct (states self) as [ss|] eqn:Hss.
    + rewrite (mapM_returned
                 (fun '(start_idx, end_idx) =>
                    ss0 ← getattr (Some ss); Returned (py_slice ss0 start_idx end_idx))
                 (fun '(start_idx, end_idx) => py_slice ss start_idx end_idx))
        by (intros [s e]; reflexivity).
      rewrite (mapM_returned
                 (fun '(start_idx, end_idx) =>
                    ss0 ← getattr (Some ss);
                    Returned (py_slice ss0 (start_idx + 1) (end_idx + 1)))
                 (fun '(start_idx, end_idx) => py_slice ss (start_idx + 1) (end_idx + 1)))
        by (intros [s e]; reflexivity).
      cbn [mbind outcome_bind]. intros Hrun.
      exists (s0 :: starts), ends, ss.
      split; [reflexivity|]. split; [discriminate|]. split; [reflexivity|].
      destruct (actions self); cbn [getattr mbind outcome_bind] in Hrun; [|discriminate].
      destruct (take_at _ ends); cbn [mbind outcome_bind] in Hrun; [|discriminate..].
      destruct (rewards self); cbn [getattr mbind outcome_bind] in Hrun; [|discriminate].
      destruct (take_at _ ends); cbn [mbind outcome_bind] in Hrun; [|discriminate..].
      destruct (dones self); cbn [getattr mbind outcome_bind] in Hrun; [|discriminate].
      destruct (take_at _ ends); cbn [mbind outcome_bind] in Hrun; [|discriminate..].
      congruence.
    + subst ends. cbn [map zip zip_with mapM getattr mbind outcome_bind].
      discriminate.
Qed.

(** C1.  In every batch [sample] returns, each stacked window
    [[start_idx, end_idx)] spans [history_length] indices and no index
    strictly inside it (any index of the window but the last one,
    [end_idx - 1]) holds [done = true]. *)
Theorem sample_no_internal_done (self : buffer) (draws : list Z) b_t b_tp1 b_a b_r b_d :
  sample self draws = Returned (b_t, b_tp1, b_a, b_r, b_d) ->
  exists start_idxs end_idxs ss,
    _generate_idxs self draws = Returned (start_idxs, end_idxs) /\
    states self = Some ss /\
    b_t = map (fun '(start_idx, end_idx) => py_slice ss start_idx end_idx)
              (zip start_idxs end_idxs) /\
    Forall2 (fun start_idx end_idx =>
               end_idx = start_idx + history_length self /\
               forall i, start_idx <= i < end_idx - 1 -> done_at self i <> Some true)
            start_idxs end_idxs.
Proof.
  intros Hrun.
  apply sample_returned in Hrun as (starts & ends & ss & Hgen & _ & Hss & Hbt).
  exists starts, ends, ss. repeat split; try assumption.
  apply generate_idxs_sound in Hgen as ((_ & _ & -> & Hclean & _) & _).
  clear Hbt. induction Hclean as [|s starts Hs _ IH]; cbn [map]; constructor.
  - split; [reflexivity|]. intros i Hi. apply Hs. lia.
  - exact IH.
Qed.

(** C2.  When [batch_size <= current_len - history_length], every batch
    [sample] returns is built from exactly [batch_size] start indices, no two
    of them equal, each in [[0, current_len - history_length)]. *)
Theorem sample_distinct_starts (self : buffer) (draws : list Z) b_t b_tp1 b_a b_r b_d :
  batch_size self <= current_len self - history_length self ->
  sample self draws = Returned (b_t, b_tp1, b_a, b_r, b_d) ->
  exists start_idxs end_idxs,
    _generate_idxs self draws = Returned (start_idxs, end_idxs) /\
    len start_idxs = batch_size self /\
    NoDup start_idxs /\
    Forall (fun start_idx => 0 <= start_idx < current_len self - history_length self)
           start_idxs.
Proof.
  intros _ Hrun.
  apply sample_returned in Hrun as (starts & ends & ss & Hgen & Hne & _ & _).
  exists starts, ends. split; [assumption|].
  apply generate_idxs_sound in Hgen as ((Hnd & Hin & _) & Hlen).
  repeat split; try assumption.
  destruct starts; [congruence|]. unfold len in *. simpl length in *. lia.
Qed.

(** While every candidate window is rejected the loop never gets out. *)
Lemma generate_loop_all_rejected (self : buffer) (draws : list Z) :
  history_length self < current_len self ->
  (forall s, 0 <= s < current_len self - history_length self ->
             has_internal_done self s) ->
  forall start_idxs end_idxs,
    len start_idxs < batch_size self ->
    generate_loop self draws start_idxs end_idxs = Pending.
Proof.
  intros Hhigh Hrej. induction draws as [|r draws IH]; intros starts ends Hlt.
  - cbn [generate_loop].
    destruct (Z.ltb_spec (len starts) (batch_size self)); [|lia]. cbn [negb].
    unfold randint.
    destruct (Z.leb_spec (current_len self - history_length self) 0); [lia|].
    reflexivity.
  - cbn [generate_loop].
    destruct (Z.ltb_spec (len starts) (batch_size self)); [|lia]. cbn [negb].
    unfold randint.
    destruct (Z.leb_spec (current_len self - history_length self) 0); [lia|].
    cbn [mbind outcome_bind]. rewrite Z.sub_0_r, Z.add_0_l.
    set (start_idx := r mod (current_len self - history_length self)).
    assert (Hrange : 0 <= start_idx < current_len self - history_length self)
      by (apply Z.mod_pos_bound; lia).
    destruct (bool_decide (start_idx ∈ starts)); [apply IH; assumption|].
    destruct (Hrej start_idx Hrange) as (i & Hi & Hdone).
    unfold done_at in Hdone.
    destruct (dones self) as [dd|]; [|discriminate Hdone].
    cbn in Hdone. cbn [getattr mbind outcome_bind].
    rewrite (slice_has_true dd start_idx (start_idx + history_length self - 1) i)
      by (assumption || lia).
    apply IH; assumption.
Qed.

(** C4 (as amended).  For a positive [batch_size]: when the buffer holds no
    more transitions than [history_length], [sample] raises [ValueError]
    whatever the random generator yields (the range of [randint] is empty);
    when it holds more but every candidate window has an internal [done],
    [sample] neither returns nor raises, however many draws it is given. *)
Theorem sample_exhaustion (self : buffer) :
  0 < batch_size self ->
  (current_len self <= history_length self ->
   forall draws, sample self draws = Raised ValueError) /\
  (history_length self < current_len self ->
   (forall s, 0 <= s < current_len self - history_length self ->
              has_internal_done self s) ->
   forall draws, sample self draws = Pending).
Proof.
  intros Hbatch. split.
  - intros Hsmall draws. unfold sample, _generate_idxs.
    assert (Hgen : generate_loop self draws [] [] = Raised ValueError).
    { destruct draws; cbn [generate_loop]; change (len []) with 0;
        (destruct (Z.ltb_spec 0 (batch_size self)); [|lia]); cbn [negb];
        unfold randint;
        (destruct (Z.leb_spec (current_len self - history_length self) 0); [|lia]);
        reflexivity. }
    rewrite Hgen. reflexivity.
  - intros Hbig Hrej draws. unfold sample, _generate_idxs.
    rewrite generate_loop_all_rejected by (assumption || (change (len []) with 0; lia)).
    reflexivity.
Qed.

(** The loop accepts valid picks as they come: fed start indices that are
    new, in range and free of internal [done], it returns them in order. *)
Lemma generate_loop_accepts (self : buffer) (dd : list bool) (picks : list Z) :
  dones self = Some dd ->
  forall start_idxs end_idxs,
    NoDup (start_idxs ++ picks) ->
    Forall (fun s => 0 <= s < current_len self - history_length self) picks ->
    Forall (fun s => np_any (py_slice dd s (s + history_length self - 1)) = false) picks ->
    len start_idxs + len picks = batch_size self ->
    generate_loop self picks start_idxs end_idxs =
      Returned (start_idxs ++ picks,
                end_idxs ++ map (fun s => s + history_length self) picks).
Proof.
  intros Hdd. induction picks as [|s picks IH]; intros starts ends Hnd Hin Hclean Hlen.
  - cbn [generate_loop]. change (len []) with 0 in Hlen.
    destruct (Z.ltb_spec (len starts) (batch_size self)); [lia|].
    cbn [negb map]. rewrite !app_nil_r. reflexivity.
  - cbn [generate_loop].
    assert (Hlen' : len (s :: picks) = len picks + 1) by (unfold len; simpl length; lia).
    pose proof (len_nonneg picks).
    destruct (Z.ltb_spec (len starts) (batch_size self)); [|lia]. cbn [negb].
    apply Forall_cons in Hin as (Hs & Hin). apply Forall_cons in Hclean as (Hcs & Hclean).
    unfold randint.
    destruct (Z.leb_spec (current_len self - history_length self) 0); [lia|].
    cbn [mbind outcome_bind]. rewrite Z.sub_0_r, Z.add_0_l.
    rewrite Z.mod_small by assumption.
    apply NoDup_app in Hnd as Hnd'. destruct Hnd' as (_ & Hfresh & _).
    destruct (bool_decide_reflect (s ∈ starts)) as [Hold|_].
    { exfalso. apply (Hfresh s Hold). left. }
    rewrite Hdd. cbn [getattr mbind outcome_bind]. rewrite Hcs.
    rewrite IH.
    + rewrite <- !app_assoc. reflexivity.
    + rewrite <- app_assoc. exact Hnd.
    + assumption.
    + assumption.
    + rewrite len_app. change (len [s]) with 1. lia.
Qed.


End ReplayBufferFacts.

(** The statement of [replay_buffer_add_wraps] for three transitions added
    to a buffer of capacity two. *)
Lemma replay_buffer_add_wraps_witness :
  exists self',
    int_add_all (run_of [false; false; true]) (ReplayBuffer.__init__ 2 1 1)
      = (self', Returned tt) /\
    ReplayBuffer.current_idx self' = 1 /\
    ReplayBuffer.current_len self' = 2 /\
    ReplayBuffer.slot self' 0 = Some (2, 0, 0, true).
Proof.
  destruct (replay_buffer_add_wraps (fun s : Z => s) (fun a : Z => a) (fun r : Z => r)
              (fun _ => 0) (fun _ => 0) (fun _ => 0) (fun _ => false)
              2 1 1 (run_of [false; false; true]) ltac:(lia))
    as (self' & Hrun & Hidx & Hlen & _ & _ & _ & Hslots).
  exists self'. split; [exact Hrun|]. split; [exact Hidx|]. split; [exact Hlen|].
  apply (Hslots 2%nat (2, 0, 0, true)); [reflexivity|].
  vm_compute. discriminate.
Defined.

(** The statement of [sample_no_internal_done] on the buffer of capacity 10
    and history length 3 that holds ten transitions, the one at index 4 with
    [done = true]: the draw 3 is rejected (index 4 would be inside the
    window), the draws 2 and 5 are kept. *)
Lemma sample_no_internal_done_witness :
  exists start_idxs end_idxs,
    ReplayBuffer._generate_idxs
      (buffer_after 10 3 2
         [false; false; false; false; true; false; false; false; false; false])
      [3; 2; 5] = Returned (start_idxs, end_idxs) /\
    start_idxs = [2; 5] /\
    Forall2 (fun start_idx end_idx =>
               end_idx = start_idx + 3 /\
               forall i, start_idx <= i < end_idx - 1 ->
                 ReplayBuffer.done_at
                   (buffer_after 10 3 2
                      [false; false; false; false; true;
                       false; false; false; false; false]) i <> Some true)
            start_idxs end_idxs.
Proof.
  edestruct (sample_no_internal_done
               (buffer_after 10 3 2
                  [false; false; false; false; true; false; false; false; false; false])
               [3; 2; 5])
    as (start_idxs & end_idxs & ss & Hgen & _ & _ & Hclean).
  - vm_compute. reflexivity.
  - exists start_idxs, end_idxs. split; [exact Hgen|]. split; [|exact Hclean].
    vm_compute in Hgen. congruence.
Defined.

(** The statement of [sample_distinct_starts] on the same buffer. *)
Lemma sample_distinct_starts_witness :
  exists start_idxs end_idxs,
    ReplayBuffer._generate_idxs
      (buffer_after 10 3 2
         [false; false; false; false; true; false; false; false; false; false])
      [3; 2; 2; 5] = Returned (start_idxs, end_idxs) /\
    len start_idxs = 2 /\ NoDup start_idxs.
Proof.
  edestruct (sample_distinct_starts
               (buffer_after 10 3 2
                  [false; false; false; false; true; false; false; false; false; false])
               [3; 2; 2; 5])
    as (start_idxs & end_idxs & Hgen & Hlen & Hnd & _).
  - vm_compute. discriminate.
  - vm_compute. reflexivity.
  - exists start_idxs, end_idxs. split; [exact Hgen|]. split; [exact Hlen|exact Hnd].
Defined.

(** The statement of [sample_exhaustion] on a buffer that holds two
    transitions for a history of four, and on one that holds four
    transitions for a history of three with [done = true] at index 1. *)
Lemma sample_exhaustion_witness :
  (forall draws,
      ReplayBuffer.sample (buffer_after 10 4 1 [false; false]) draws
        = Raised ValueError) /\
  (forall draws,
      ReplayBuffer.sample (buffer_after 10 3 1 [false; true; false; false]) draws
        = Pending).
Proof.
  split.
  - apply (sample_exhaustion (buffer_after 10 4 1 [false; false])).
    + reflexivity.
    + vm_compute. discriminate.
  - apply (sample_exhaustion (buffer_after 10 3 1 [false; true; false; false])).
    + reflexivity.
    + reflexivity.
    + intros s Hs. change (0 <= s < 1) in Hs.
      exists 1. split; [change (s <= 1 < s + 3 - 1); lia|reflexivity].
Defined.


(** C4 (as stated) fails: with two transitions stored and a history length
    of four, [sample] does not hang; the first [randint] raises
    [ValueError]. *)
Lemma sample_small_buffer_raises :
  ReplayBuffer.current_len (buffer_after 10 4 1 [false; false]) = 2 /\
  ReplayBuffer.history_length (buffer_after 10 4 1 [false; false]) = 4 /\
  ReplayBuffer.sample (buffer_after 10 4 1 [false; false]) [0; 1; 2]
    = Raised ValueError.
Proof. repeat split. Qed.

(** ** Epsilon-greedy action selection *)

Local Open Scope Q_scope.

(** The scan keeps [first_argmax] of the elements seen so far. *)
Lemma argmax_from_correct (l : list Q) : forall (seen : list Q) (best : Q) (best_i : Z),
  seen !! Z.to_nat best_i = Some best ->
  first_argmax seen best_i ->
  first_argmax (seen ++ l) (argmax_from best best_i (len seen) l).
Proof.
  induction l as [|x l IH]; intros seen best best_i Hbest Hmax.
  - cbn [argmax_from]. rewrite app_nil_r. assumption.
  - cbn [argmax_from].
    replace (seen ++ x :: l) with ((seen ++ [x]) ++ l) by (rewrite <- app_assoc; reflexivity).
    replace (len seen + 1)%Z with (len (seen ++ [x]))
      by (rewrite len_app; reflexivity).
    destruct Hmax as (b & Hb & Hpos & Hle & Hlt).
    assert (b = best) as -> by congruence.
    assert (Hi : (Z.to_nat best_i < length seen)%nat) by (eapply lookup_lt_Some; eassumption).
    destruct (Qle_bool x best) eqn:Hcmp.
    + apply Qle_bool_iff in Hcmp. apply IH.
      * rewrite lookup_app_l by assumption. assumption.
      * exists best. split; [rewrite lookup_app_l by assumption; assumption|].
        split; [assumption|]. split.
        -- intros j y Hj. apply lookup_app_Some in Hj as [Hj|[_ Hj]].
           ++ eapply Hle; eassumption.
           ++ apply list_lookup_singleton_Some in Hj as [_ <-]. assumption.
        -- intros j y Hj Hjlt. rewrite lookup_app_l in Hj by lia.
           eapply Hlt; eassumption.
    + assert (Hgt : best < x).
      { apply Qnot_le_lt. intros Hle'. apply Qle_bool_iff in Hle'. congruence. }
      assert (Hlast : (seen ++ [x]) !! Z.to_nat (len seen) = Some x).
      { unfold len. rewrite Nat2Z.id. rewrite lookup_app_r by lia.
        rewrite Nat.sub_diag. reflexivity. }
      apply IH; [assumption|].
      exists x. split; [assumption|]. split; [apply len_nonneg|]. split.
      * intros j y Hj. apply lookup_app_Some in Hj as [Hj|[_ Hj]].
        -- apply Qlt_le_weak. eapply Qle_lt_trans; [eapply Hle; eassumption|assumption].
        -- apply list_lookup_singleton_Some in Hj as [_ <-]. apply Qle_refl.
      * intros j y Hj Hjlt. unfold len in Hjlt. rewrite Nat2Z.id in Hjlt.
        rewrite lookup_app_l in Hj by assumption.
        eapply Qle_lt_trans; [eapply Hle; eassumption|assumption].
Qed.

(** [np.argmax] on a non-empty array returns the index of its first maximal
    element. *)
Lemma np_argmax_correct (a : ndarray) :
  flat a <> [] ->
  exists i, np_argmax a = Returned i /\ first_argmax (flat a) i.
Proof.
  unfold np_argmax. destruct (flat a) as [|x l]; [congruence|]. intros _.
  eexists. split; [reflexivity|].
  apply (argmax_from_correct l [x] x 0%Z).
  - reflexivity.
  - exists x. split; [reflexivity|]. split; [lia|]. split.
    + intros j y Hj. apply list_lookup_singleton_Some in Hj as [_ <-]. apply Qle_refl.
    + intros j y Hj Hlt. simpl in Hlt. lia.
Qed.

(** With [epsilon = 0] and a draw above zero the policy is greedy: it
    returns the index of the first maximal Q-value. *)
Lemma egreedy_zero_epsilon_greedy (Q_values : ndarray) (u : Q) (r : Z) :
  flat Q_values <> [] -> 0 < u ->
  exists i, egreedy_police Q_values 0 u r = Returned i /\
            first_argmax (flat Q_values) i.
Proof.
  intros Hne Hu. unfold egreedy_police.
  destruct (Qle_bool u 0) eqn:Hcmp.
  - apply Qle_bool_iff in Hcmp. exfalso. eapply Qlt_not_le; eassumption.
  - apply (np_argmax_correct (np_squeeze Q_values)). exact Hne.
Qed.

(** [egreedy_zero_epsilon_greedy] on three Q-values with a tie for the
    maximum, at the draw 1/2. *)
Lemma egreedy_zero_epsilon_greedy_witness :
  exists i, egreedy_police (np_array [1; 3; 3]) 0 (1 # 2) 0 = Returned i /\
            first_argmax [1; 3; 3] i.
Proof.
  apply (egreedy_zero_epsilon_greedy (np_array [1; 3; 3]) (1 # 2) 0).
  - discriminate.
  - reflexivity.
Defined.

(** C3 fails at the draw [u = 0]: [np.random.random()] ranges over [[0, 1)],
    and [0 <= epsilon] holds for [epsilon = 0], so the random branch is taken;
    with Q-values [[1, 3]] and the choice falling on index 0 the policy
    returns 0, while the maximal Q-value is at index 1. *)
Theorem egreedy_zero_epsilon_explores :
  egreedy_police (np_array [1; 3]) 0 0 0 = Returned 0%Z /\
  np_argmax (np_array [1; 3]) = Returned 1%Z.
Proof. split; reflexivity. Qed.

Local Close Scope Q_scope.
Local Open Scope Z_scope.

Lemma np_arange_lookup (n : Z) (j : nat) :
  Z.of_nat j < n -> np_arange n !! j = Some (Z.of_nat j).
Proof.
  intros Hj. unfold np_arange. rewrite list_lookup_fmap.
  rewrite lookup_seq_lt by lia. reflexivity.
Qed.

Lemma len_np_arange (n : Z) : 0 <= n -> len (np_arange n) = n.
Proof.
  intros Hn. unfold len, np_arange. rewrite length_map, length_seq. lia.
Qed.

Lemma random_choice_arange (n r : Z) :
  0 < n -> random_choice (np_arange n) r = Returned (r mod n).
Proof.
  intros Hn. unfold random_choice.
  destruct (np_arange n) as [|a0 rest] eqn:E.
  - pose proof (len_np_arange n ltac:(lia)) as Hl. rewrite E in Hl.
    unfold len in Hl. simpl in Hl. lia.
  - rewrite <- E. rewrite len_np_arange by lia.
    pose proof (Z.mod_pos_bound r n Hn) as Hr.
    unfold py_index, py_norm. rewrite len_np_arange by lia.
    destruct (Z.ltb_spec (r mod n) 0); [lia|].
    destruct (Z.leb_spec 0 (r mod n)); [|lia].
    destruct (Z.ltb_spec (r mod n) n); [|lia].
    cbn [andb]. rewrite np_arange_lookup by lia.
    rewrite Z2Nat.id by lia. reflexivity.
Qed.

(** On a one-dimensional array of at least two Q-values both branches
    return a valid action index. *)
Lemma egreedy_index_in_range (l : list Q) (epsilon u : Q) (r : Z) :
  (2 <= length l)%nat ->
  exists i, egreedy_police (np_array l) epsilon u r = Returned i /\ 0 <= i < len l.
Proof.
  intros Hlen. unfold egreedy_police.
  assert (Hsq : np_squeeze (np_array l) = np_array l).
  { unfold np_squeeze, np_array. simpl.
    destruct (Nat.eqb_spec (length l) 1); [lia|]. reflexivity. }
  rewrite Hsq. destruct (Qle_bool u epsilon).
  - cbn [np_len np_array shape mbind outcome_bind].
    rewrite random_choice_arange by lia. eexists. split; [reflexivity|].
    apply Z.mod_pos_bound. unfold len. lia.
  - destruct (np_argmax_correct (np_array l)) as (i & Hi & x & Hx & Hpos & _).
    { destruct l; [simpl in Hlen; lia|discriminate]. }
    exists i. split; [assumption|]. cbn [flat np_array] in Hx.
    apply lookup_lt_Some in Hx. unfold len. lia.
Qed.

(** [egreedy_index_in_range] on two Q-values, in the random branch. *)
Lemma egreedy_index_in_range_witness :
  exists i, egreedy_police (np_array [1%Q; 3%Q]) 1%Q (1 # 2)%Q 7 = Returned i /\
            0 <= i < 2.
Proof.
  apply (egreedy_index_in_range [1%Q; 3%Q] 1%Q (1 # 2)%Q 7).
  simpl. lia.
Defined.

(** C10 fails on a single Q-value: [np.squeeze] turns the one-element array
    into an array without axes, [len] of which raises [TypeError], so the
    random branch returns no index at all; the greedy branch does return the
    only valid index, 0. *)
Theorem egreedy_single_action_raises :
  egreedy_police (np_array [5%Q]) 1%Q (1 # 2)%Q 0 = Raised TypeError /\
  egreedy_police (np_array [5%Q]) 0%Q (1 # 2)%Q 0 = Returned 0.
Proof. split; reflexivity. Qed.

(** ** Piecewise-linear schedule, in exact arithmetic *)

Lemma zip_removelast_tail {A : Type} (l : list A) :
  zip (removelast l) (tail l) = zip l (tail l).
Proof.
  induction l as [|a [|b l] IH]; try reflexivity.
  change (removelast (a :: b :: l)) with (a :: removelast (b :: l)).
  cbn [tail zip zip_with]. f_equal. exact IH.
Qed.

Lemma zip_tail_removelast {A : Type} (l : list A) :
  zip (tail l) (removelast l) = zip (tail l) l.
Proof.
  induction l as [|a [|b l] IH]; try reflexivity.
  change (removelast (a :: b :: l)) with (a :: removelast (b :: l)).
  cbn [tail zip zip_with]. f_equal. exact IH.
Qed.

Section PiecewiseFacts.
Local Open Scope Q_scope.

Lemma strictly_increasing_above (b : Q) (bs : list Q) :
  strictly_increasing (b :: bs) -> forall b', b' ∈ bs -> b < b'.
Proof.
  revert b. induction bs as [|b1 bs IH]; intros b Hinc b' Hin.
  - apply elem_of_nil in Hin. contradiction.
  - destruct Hinc as [Hlt Hinc].
    apply elem_of_cons in Hin as [->|Hin]; [assumption|].
    eapply Qlt_trans; [exact Hlt|]. apply IH; assumption.
Qed.

Lemma strictly_increasing_tail (b : Q) (bs : list Q) :
  strictly_increasing (b :: bs) -> strictly_increasing bs.
Proof. destruct bs; [trivial|]. intros [_ H]. exact H. Qed.

(** One step of the construction of the slopes. *)
Lemma decay_rates_cons (b0 b1 y0 y1 : Q) (bs ys : list Q) :
  ~ b1 - b0 == 0 ->
  decay_rates_of (y0 :: y1 :: ys) (decay_steps_of (b0 :: b1 :: bs)) =
    rates ← decay_rates_of (y1 :: ys) (decay_steps_of (b1 :: bs));
    Returned (- (y0 - y1) / (b1 - b0) :: rates).
Proof.
  intros Hne. unfold decay_rates_of, decay_steps_of.
  rewrite !zip_removelast_tail. cbn [tail zip zip_with map mapM].
  cbn [num_div num_neg num_sub Q_number].
  destruct (Qeq_bool (b1 - b0) 0) eqn:E.
  - apply Qeq_bool_iff in E. contradiction.
  - cbn [mbind outcome_bind].
    destruct (mapM _ _); reflexivity.
Qed.

Lemma get_epsilon_cons (b0 b1 m0 y0 y1 : Q) (bs ms ys : list Q) (x : Q) :
  get_epsilon (b0 :: b1 :: bs) (m0 :: ms) (y0 :: y1 :: ys) x =
    if Qle_bool x b1 then m0 * (x - b0) + y0
    else get_epsilon (b1 :: bs) ms (y1 :: ys) x.
Proof.
  unfold get_epsilon. rewrite !zip_tail_removelast. reflexivity.
Qed.

Lemma Qle_bool_false (x y : Q) : y < x -> Qle_bool x y = false.
Proof.
  intros Hlt. destruct (Qle_bool x y) eqn:E; [|reflexivity].
  apply Qle_bool_iff in E. exfalso. eapply Qlt_not_le; eassumption.
Qed.

Lemma Qle_bool_true (x y : Q) : x <= y -> Qle_bool x y = true.
Proof. apply Qle_bool_iff. Qed.

Lemma piecewise_chain (bs : list Q) : forall (b0 y0 : Q) (ys : list Q),
  length ys = length bs ->
  (forall b1, head bs = Some b1 -> ~ b1 == b0) ->
  strictly_increasing bs ->
  exists rates,
    decay_rates_of (y0 :: ys) (decay_steps_of (b0 :: bs)) = Returned rates /\
    (forall (i : nat) b y,
        bs !! i = Some b -> ys !! i = Some y ->
        get_epsilon (b0 :: bs) rates (y0 :: ys) b == y) /\
    (forall (i : nat) x0 x1 z0 z1 x,
        (b0 :: bs) !! i = Some x0 -> bs !! i = Some x1 ->
        (y0 :: ys) !! i = Some z0 -> ys !! i = Some z1 ->
        i = 0%nat \/ x0 <= x -> x <= x1 ->
        get_epsilon (b0 :: bs) rates (y0 :: ys) x
          == z0 + (z1 - z0) / (x1 - x0) * (x - x0)) /\
    (forall x, (forall b, b ∈ bs -> b < x) ->
        get_epsilon (b0 :: bs) rates (y0 :: ys) x == List.last (y0 :: ys) 0).
Proof.
  induction bs as [|b1 bs IH]; intros b0 y0 ys Hlen Hfirst Hinc.
  - destruct ys; [|discriminate Hlen].
    exists []. split; [reflexivity|]. split; [|split].
    + intros i b y Hb. discriminate Hb.
    + intros i x0 x1 z0 z1 x _ Hb. discriminate Hb.
    + intros x _. reflexivity.
  - destruct ys as [|y1 ys]; [discriminate Hlen|].
    injection Hlen as Hlen.
    assert (Hne : ~ b1 - b0 == 0).
    { intros E. apply (Hfirst b1 eq_refl). lra. }
    assert (Habove := strictly_increasing_above b1 bs Hinc).
    destruct (IH b1 y1 ys Hlen) as (rates & Hrates & HK & HS & HF).
    { intros b2 Hb2. destruct bs as [|b2' bs]; [discriminate Hb2|].
      injection Hb2 as ->. destruct Hinc as [Hlt _]. intros E. lra. }
    { eapply strictly_increasing_tail; eassumption. }
    exists (- (y0 - y1) / (b1 - b0) :: rates).
    split; [rewrite decay_rates_cons by assumption; rewrite Hrates; reflexivity|].
    split; [|split].
    + intros [|i] b y Hb Hy; rewrite get_epsilon_cons.
      * injection Hb as <-. injection Hy as <-.
        rewrite Qle_bool_true by apply Qle_refl. field. exact Hne.
      * cbn in Hb, Hy.
        rewrite Qle_bool_false by (apply Habove; eapply list_elem_of_lookup_2; eassumption).
        eapply HK; eassumption.
    + intros [|i] x0 x1 z0 z1 x Hx0 Hx1 Hz0 Hz1 Hlo Hhi; rewrite get_epsilon_cons.
      * injection Hx0 as <-. injection Hx1 as <-.
        injection Hz0 as <-. injection Hz1 as <-.
        rewrite Qle_bool_true by assumption. field. exact Hne.
      * cbn in Hx0, Hx1, Hz0, Hz1.
        destruct Hlo as [Hlo|Hlo]; [discriminate Hlo|].
        destruct (Qle_bool x b1) eqn:Hcmp.
        -- apply Qle_bool_iff in Hcmp.
           destruct i as [|i].
           ++ injection Hx0 as <-. injection Hz0 as <-.
              assert (Hx : x == b1) by (apply Qle_antisym; assumption).
              assert (Hx1' : b1 < x1)
                by (apply Habove; eapply list_elem_of_lookup_2; eassumption).
              rewrite Hx. field. split; [lra|exact Hne].
           ++ exfalso. cbn in Hx0.
              assert (b1 < x0)
                by (apply Habove; eapply list_elem_of_lookup_2; eassumption).
              lra.
        -- eapply HS; try eassumption. right. assumption.
    + intros x Hx. rewrite get_epsilon_cons.
      rewrite Qle_bool_false by (apply Hx; left).
      rewrite HF by (intros b Hb; apply Hx; right; exact Hb).
      reflexivity.
Qed.
End PiecewiseFacts.


Lemma last_scaled (init : Q) (values : list Q) (v : Q) (y0 d : Q) :
  last values = Some v ->
  List.last (y0 :: map (Qmult init) values) d = (init * v)%Q.
Proof.
  revert y0. induction values as [|v0 values IH]; intros y0 Hlast.
  - discriminate Hlast.
  - destruct values as [|v1 values].
    + injection Hlast as <-. reflexivity.
    + change (List.last (y0 :: map (Qmult init) (v0 :: v1 :: values)) d)
        with (List.last (init * v0 :: map (Qmult init) (v1 :: values))%Q d).
      apply IH. exact Hlast.
Qed.

(** C5 (as amended), in exact rational arithmetic.  For strictly increasing
    boundaries whose first one is not 0, with as many values as boundaries,
    [piecewise_linear_decay] returns a function that (1) at boundary
    [boundaries[i]] is exactly [initial_value * values[i]]; (2) is continuous
    across adjacent segments: at every [x <= boundaries[0]] it is the
    straight line through [(0, initial_value)] and
    [(boundaries[0], initial_value * values[0])], and for [i >= 1] on the
    closed interval from [boundaries[i-1]] to [boundaries[i]] it is the
    straight line through the knots at these two boundaries, so that the two
    pieces that meet at a boundary agree there: there is no jump; (3) at
    every [x] above all boundaries is [initial_value * values[-1]].  The
    first boundary may be negative. *)
Theorem piecewise_linear_decay_knots (boundaries values : list Q) (initial_value : Q) :
  strictly_increasing boundaries ->
  (forall b, head boundaries = Some b -> ~ (b == 0)%Q) ->
  length values = length boundaries ->
  exists get_eps,
    piecewise_linear_decay boundaries values initial_value = Returned get_eps /\
    (forall (i : nat) b v,
        boundaries !! i = Some b -> values !! i = Some v ->
        (get_eps b == initial_value * v)%Q) /\
    (forall (i : nat) x0 x1 y0 y1 x,
        (0%Q :: boundaries) !! i = Some x0 -> boundaries !! i = Some x1 ->
        (initial_value :: map (Qmult initial_value) values) !! i = Some y0 ->
        map (Qmult initial_value) values !! i = Some y1 ->
        i = 0%nat \/ (x0 <= x)%Q -> (x <= x1)%Q ->
        (get_eps x == y0 + (y1 - y0) / (x1 - x0) * (x - x0))%Q) /\
    (forall x v,
        (forall b, b ∈ boundaries -> (b < x)%Q) -> last values = Some v ->
        (get_eps x == initial_value * v)%Q).
Proof.
  intros Hinc Hfirst Hlen.
  destruct (piecewise_chain boundaries 0%Q initial_value (map (Qmult initial_value) values))
    as (rates & Hrates & HK & HS & HF).
  { rewrite length_map. exact Hlen. }
  { exact Hfirst. }
  { exact Hinc. }
  exists (get_epsilon (0%Q :: boundaries) rates
            (initial_value :: map (Qmult initial_value) values)).
  split.
  { change (piecewise_linear_decay boundaries values initial_value)
      with (decay_rates ←
              decay_rates_of (initial_value :: map (Qmult initial_value) values)
                             (decay_steps_of (0%Q :: boundaries));
            Returned (get_epsilon (0%Q :: boundaries) decay_rates
                        (initial_value :: map (Qmult initial_value) values))).
    rewrite Hrates. reflexivity. }
  split; [|split].
  - intros i b v Hb Hv. apply (HK i); [exact Hb|].
    change (map (Qmult initial_value) values) with (Qmult initial_value <$> values).
    rewrite list_lookup_fmap, Hv. reflexivity.
  - exact HS.
  - intros x v Hx Hv. rewrite (HF x Hx).
    rewrite (last_scaled initial_value values v) by exact Hv. reflexivity.
Qed.

(** The statement of [piecewise_linear_decay_knots] on the boundaries of the
    example script, at the first knot. *)
Lemma piecewise_linear_decay_knots_witness :
  exists get_eps,
    piecewise_linear_decay [30000 # 1; 150000 # 1]%Q [1 # 10; 1 # 100]%Q 1%Q
      = Returned get_eps /\
    (get_eps (30000 # 1) == 1 * (1 # 10))%Q.
Proof.
  destruct (piecewise_linear_decay_knots
              [30000 # 1; 150000 # 1]%Q [1 # 10; 1 # 100]%Q 1%Q)
    as (get_eps & Hrun & HK & _).
  - split; [reflexivity|exact I].
  - intros b [= <-]. discriminate.
  - reflexivity.
  - exists get_eps. split; [exact Hrun|].
    apply (HK 0%nat); reflexivity.
Defined.

(** C5 (as stated) fails: the boundaries [[0, 10]] are strictly increasing
    and non-empty, yet the first segment, from the implicit boundary 0 to the
    boundary 0, is empty and [piecewise_linear_decay] raises
    [ZeroDivisionError] instead of returning a function. *)
Lemma piecewise_linear_decay_zero_boundary :
  strictly_increasing [0; 10 # 1]%Q /\
  piecewise_linear_decay [0; 10 # 1]%Q [1 # 2; 1 # 10]%Q 1%Q = Raised ZeroDivisionError.
Proof. split; [split; [reflexivity|exact I]|reflexivity]. Qed.

(** ** Piecewise-linear schedule, in floating point *)

Section OutsideBoundaries.
Context {A : Type} `{Number A}.

(** A step that fails the test [x <= boundary] of every segment falls
    through the loop of [get_epsilon]. *)
Lemma scan_segments_outside (segments : list (A * A * A * A)) (x outside : A) :
  Forall (fun seg => num_le x (fst (fst (fst seg))) = false) segments ->
  scan_segments segments x outside = outside.
Proof.
  induction 1 as [|[[[boundary x0] m] y0] rest Hle _ IH]; [reflexivity|].
  cbn [scan_segments]. cbn [fst] in Hle. rewrite Hle. exact IH.
Qed.

Lemma zip_first_Forall {B C : Type} (P : B -> Prop) (l : list B) (k : list C) :
  Forall P l -> Forall (fun bc => P (fst bc)) (zip l k).
Proof.
  intros Hl. revert k.
  induction Hl as [|b l Hb _ IH]; intros [|c k]; cbn [zip zip_with]; constructor;
    [exact Hb|apply IH].
Qed.

(** So does every step that is above all boundaries in the order of the
    number type. *)
Lemma get_epsilon_outside (boundaries decay_rates final_epsilons : list A) (x : A) :
  Forall (fun boundary => num_le x boundary = false) (tail boundaries) ->
  get_epsilon boundaries decay_rates final_epsilons x
  = List.last final_epsilons num_zero.
Proof.
  intros Hout. unfold get_epsilon. apply scan_segments_outside.
  apply (zip_first_Forall (fun seg => num_le x (fst (fst seg)) = false)).
  apply (zip_first_Forall (fun seg => num_le x (fst seg) = false)).
  apply (zip_first_Forall (fun boundary => num_le x boundary = false)).
  exact Hout.
Qed.

End OutsideBoundaries.

(** A float strictly above a positive finite float [hi] is not [<=] it, nor
    [<=] any positive finite float [lo] of a smaller exponent. *)
Lemma float_above (hi lo x : float) (m_hi m_lo : positive) (e_hi e_lo : Z) :
  Prim2SF hi = S754_finite false m_hi e_hi ->
  Prim2SF lo = S754_finite false m_lo e_lo ->
  e_lo < e_hi ->
  PrimFloat.ltb hi x = true ->
  PrimFloat.leb x hi = false /\ PrimFloat.leb x lo = false.
Proof.
  intros Hhi Hlo He. rewrite ltb_spec, !leb_spec, Hhi, Hlo.
  unfold SFltb, SFleb, SFcompare.
  destruct (Prim2SF x) as [s|s| |s m e]; try discriminate.
  - destruct s; [discriminate|]. intros _. split; reflexivity.
  - destruct s; [discriminate|].
    change (PosDef.Pos.compare_cont Eq m_hi m) with (Pos.compare m_hi m).
    change (PosDef.Pos.compare_cont Eq m m_hi) with (Pos.compare m m_hi).
    rewrite (Pos.compare_antisym m_hi m).
    destruct (Z.compare_spec e_hi e) as [E|E|E];
      destruct (Z.compare_spec e e_hi) as [E1|E1|E1]; try lia;
      destruct (Z.compare_spec e e_lo) as [E2|E2|E2]; try lia;
      destruct (Pos.compare m_hi m); cbn; try discriminate; intros _; split; reflexivity.
Qed.

(** In [float] arithmetic the knot values are reached only up to rounding.
    The exploration schedule of [examples/simple_dqn.py], evaluated at its
    first boundary, is one unit in the last place below
    [initial_value * values[0]]; at every step above all boundaries it is
    exactly the last level, [initial_value * values[-1]]. *)
Lemma piecewise_linear_decay_float_rounding :
  exists get_eps,
    piecewise_linear_decay
      [PrimFloat.mul 0.1 3e5; PrimFloat.mul 0.5 3e5]%float
      [0.1; 0.01; 0.01]%float 1%float = Returned get_eps /\
    PrimFloat.ltb (get_eps (PrimFloat.mul 0.1 3e5)) (PrimFloat.mul 1 0.1) = true /\
    forall x : float,
      PrimFloat.ltb (PrimFloat.mul 0.5 3e5) x = true ->
      get_eps x = PrimFloat.mul 1 0.01.
Proof.
  eexists. split; [reflexivity|]. split; [vm_compute; reflexivity|].
  intros x Hx.
  destruct (float_above (PrimFloat.mul 0.5 3e5) (PrimFloat.mul 0.1 3e5) x
              5153960755200000 8246337208320000 (-35) (-38))
    as [Hhi Hlo]; [vm_compute; reflexivity|vm_compute; reflexivity|lia|exact Hx|].
  rewrite get_epsilon_outside.
  - vm_compute. reflexivity.
  - cbn [tail]. repeat constructor; assumption.
Qed.

(** [piecewise_linear_decay_float_rounding] at step 200000. *)
Lemma piecewise_linear_decay_float_rounding_witness :
  exists get_eps,
    piecewise_linear_decay
      [PrimFloat.mul 0.1 3e5; PrimFloat.mul 0.5 3e5]%float
      [0.1; 0.01; 0.01]%float 1%float = Returned get_eps /\
    get_eps 200000%float = PrimFloat.mul 1 0.01.
Proof.
  destruct piecewise_linear_decay_float_rounding as (get_eps & Hrun & _ & Habove).
  exists get_eps. split; [exact Hrun|]. apply Habove. vm_compute. reflexivity.
Defined.

(** ** Discounted returns *)

Section DiscountedFacts.
Context {A : Type} `{Number A}.

(** The loop of [discounted_sum_rewards], run on the reversed rewards,
    leaves the return of the first position in [reward_sum] and the returns,
    last position first, in [discounted_rewards]. *)
Lemma discounted_loop (gamma : A) (rewards : list A) :
  fold_left
    (fun '(reward_sum, discounted_rewards) reward =>
       let reward_sum := num_add reward (num_mul gamma reward_sum) in
       (reward_sum, discounted_rewards ++ [reward_sum]))
    (rev rewards) (num_zero, []) =
  (hd num_zero (returns_spec gamma rewards), rev (returns_spec gamma rewards)).
Proof.
  induction rewards as [|r rewards IH].
  - reflexivity.
  - change (rev (r :: rewards)) with (rev rewards ++ [r]).
    rewrite fold_left_app, IH. reflexivity.
Qed.

Lemma discounted_sum_rewards_spec (rewards : list A) (gamma : A) :
  discounted_sum_rewards rewards gamma = returns_spec gamma rewards.
Proof.
  unfold discounted_sum_rewards. rewrite discounted_loop. apply rev_involutive.
Qed.

Lemma returns_spec_lookup (gamma : A) (rewards : list A) (t : nat) (r : A) :
  rewards !! t = Some r ->
  returns_spec gamma rewards !! t =
    Some (num_add r (num_mul gamma
                       (default num_zero (returns_spec gamma rewards !! S t)))).
Proof.
  revert t. induction rewards as [|r0 rewards IH]; intros t Ht.
  - discriminate Ht.
  - destruct t as [|t].
    + injection Ht as ->. cbn [returns_spec].
      destruct (returns_spec gamma rewards); reflexivity.
    + cbn [returns_spec]. apply IH. exact Ht.
Qed.

Lemma length_returns_spec (gamma : A) (rewards : list A) :
  length (returns_spec gamma rewards) = length rewards.
Proof. induction rewards as [|r rewards IH]; [reflexivity|]. simpl. f_equal. exact IH. Qed.

End DiscountedFacts.

(** C7.  For any numeric type, [discounted_sum_rewards] returns one value per
    reward, in the order of the rewards, with [G_t = r_t + gamma * G_{t+1}]
    and [G_n = 0] past the end; on rewards [[1, 1, 1]] with [gamma = 0.5] it
    returns [[1.75, 1.5, 1.0]], in floating point and in exact arithmetic
    alike. *)
Theorem discounted_sum_rewards_returns :
  (forall (A : Type) (N : Number A) (rewards : list A) (gamma : A),
      let G := discounted_sum_rewards rewards gamma in
      G = returns_spec gamma rewards /\
      length G = length rewards /\
      forall (t : nat) (r : A),
        rewards !! t = Some r ->
        G !! t = Some (num_add r (num_mul gamma (default num_zero (G !! S t))))) /\
  discounted_sum_rewards [1; 1; 1]%float 0.5%float = [1.75; 1.5; 1]%float /\
  Forall2 Qeq (discounted_sum_rewards [1; 1; 1]%Q (1 # 2)%Q) [7 # 4; 3 # 2; 1]%Q.
Proof.
  split; [|split].
  - intros A N rewards gamma G. subst G.
    rewrite discounted_sum_rewards_spec.
    split; [reflexivity|]. split; [apply length_returns_spec|].
    intros t r Ht. apply returns_spec_lookup. exact Ht.
  - vm_compute. reflexivity.
  - repeat constructor.
Qed.

(** The recurrence of [discounted_sum_rewards_returns] at position 0 of the
    rewards [[1, 1, 1]] with [gamma = 0.5]. *)
Lemma discounted_sum_rewards_returns_witness :
  discounted_sum_rewards [1; 1; 1]%float 0.5%float !! 0%nat
    = Some (1 + 0.5 * 1.5)%float.
Proof.
  destruct discounted_sum_rewards_returns as (Hgen & _).
  destruct (Hgen float float_number [1; 1; 1]%float 0.5%float) as (_ & _ & Hrec).
  exact (Hrec 0%nat 1%float eq_refl).
Defined.

(** ** Exponential schedule *)

Local Open Scope R_scope.



Local Close Scope R_scope.

(** * Further properties *)

(** ** RingBuffer: construction, partial fill and reset *)

Section RingBufferMore.
Context {Shape Frame : Type}.
Variable np_zeros : Shape -> Frame.
Variable np_squeeze : Frame -> Frame.
Import RingBuffer.

Lemma init_returns (shape : Shape) (n : Z) :
  0 <= n ->
  __init__ np_zeros shape n =
    Returned (mk shape n 0 (replicate (Z.to_nat n) (np_zeros shape))).
Proof.
  intros Hn. unfold __init__. rewrite reset_returns by (simpl; lia). reflexivity.
Qed.

Lemma wf_init (shape : Shape) (n : Z) :
  0 <= n -> wf (mk shape n 0 (replicate (Z.to_nat n) (np_zeros shape))).
Proof. intros Hn. unfold wf, len. simpl. rewrite length_replicate. lia. Qed.

(** A buffer built with [maxlen >= 1] and fed any number of states holds the
    most recent [maxlen] of them, squeezed, oldest first; while fewer than
    [maxlen] have arrived the free slots in front are still the zeros of
    the constructor.  The window always has [maxlen] slots. *)
Theorem ring_buffer_recent_frames (shape : Shape) (n : Z) (xs : list Frame) :
  0 < n ->
  exists rb0 rb,
    __init__ np_zeros shape n = Returned rb0 /\
    append_all np_squeeze rb0 xs = Returned rb /\
    len (data rb) = n /\
    (len xs <= n ->
     data rb = replicate (Z.to_nat n - length xs) (np_zeros shape) ++ map np_squeeze xs) /\
    (n <= len xs ->
     data rb = map np_squeeze (drop (length xs - Z.to_nat n) xs)).
Proof.
  intros Hn. eexists. eexists.
  split; [apply init_returns; lia|].
  split; [apply append_all_returns; [apply wf_init; lia|simpl; lia]|].
  cbn [data state_shape maxlen current_idx].
  split; [|split].
  - unfold len. rewrite length_drop, length_app, length_replicate, length_map. lia.
  - intros Hle. unfold len in Hle.
    rewrite drop_app_le by (rewrite length_replicate; lia).
    rewrite drop_replicate. reflexivity.
  - intros Hge. unfold len in Hge.
    rewrite drop_app_ge by (rewrite length_replicate; lia).
    rewrite length_replicate. rewrite skipn_map. reflexivity.
Qed.

(** Whatever was appended, [reset] gives back exactly the buffer the
    constructor built. *)
Theorem ring_buffer_reset_fresh (shape : Shape) (n : Z) (xs : list Frame) :
  0 < n ->
  exists rb0 rb,
    __init__ np_zeros shape n = Returned rb0 /\
    append_all np_squeeze rb0 xs = Returned rb /\
    reset np_zeros rb = Returned rb0.
Proof.
  intros Hn. eexists. eexists.
  split; [apply init_returns; lia|].
  split; [apply append_all_returns; [apply wf_init; lia|simpl; lia]|].
  rewrite reset_returns by (simpl; lia). reflexivity.
Qed.

(** A negative [maxlen] is refused by the constructor ([np.zeros] raises
    [ValueError]); [maxlen = 0] is accepted, and then every [append] raises
    [IndexError]. *)
Theorem ring_buffer_bad_capacity (shape : Shape) (n : Z) (x : Frame) :
  (n < 0 -> __init__ np_zeros shape n = Raised ValueError) /\
  (n = 0 ->
   exists rb0, __init__ np_zeros shape n = Returned rb0 /\
               data rb0 = [] /\
               append np_squeeze rb0 x = Raised IndexError).
Proof.
  split.
  - intros Hneg. unfold __init__, reset. cbn [maxlen].
    destruct (Z.ltb_spec n 0); [reflexivity|lia].
  - intros ->. eexists. split; [reflexivity|]. split; reflexivity.
Qed.

End RingBufferMore.

(** [ring_buffer_recent_frames] on a window of three integer frames after
    two appends. *)
Lemma ring_buffer_recent_frames_witness :
  exists rb0 rb,
    RingBuffer.__init__ (fun _ : unit => 0) tt 3 = Returned rb0 /\
    RingBuffer.append_all (fun x : Z => x) rb0 [7; 9] = Returned rb /\
    RingBuffer.data rb = [0; 7; 9].
Proof.
  destruct (ring_buffer_recent_frames (fun _ : unit => 0) (fun x : Z => x) tt 3 [7; 9]
              ltac:(lia))
    as (rb0 & rb & Hinit & Hrun & _ & Hpart & _).
  exists rb0, rb. split; [exact Hinit|]. split; [exact Hrun|].
  apply Hpart. vm_compute. discriminate.
Defined.

(** [ring_buffer_reset_fresh] after four appends to a window of three. *)
Lemma ring_buffer_reset_fresh_witness :
  exists rb0 rb,
    RingBuffer.__init__ (fun _ : unit => 0) tt 3 = Returned rb0 /\
    RingBuffer.append_all (fun x : Z => x) rb0 [7; 9; 11; 13] = Returned rb /\
    RingBuffer.reset (fun _ : unit => 0) rb = Returned rb0.
Proof.
  exact (ring_buffer_reset_fresh (fun _ : unit => 0) (fun x : Z => x) tt 3
           [7; 9; 11; 13] ltac:(lia)).
Defined.

(** [ring_buffer_bad_capacity] for [maxlen = -1] and [maxlen = 0]. *)
Lemma ring_buffer_bad_capacity_witness :
  RingBuffer.__init__ (fun _ : unit => 0) tt (-1) = Raised ValueError /\
  exists rb0, RingBuffer.__init__ (fun _ : unit => 0) tt 0 = Returned rb0 /\
              RingBuffer.append (fun x : Z => x) rb0 5 = Raised IndexError.
Proof.
  split.
  - apply (ring_buffer_bad_capacity (fun _ : unit => 0) (fun x : Z => x) tt (-1) 5).
    lia.
  - destruct (ring_buffer_bad_capacity (fun _ : unit => 0) (fun x : Z => x) tt 0 5)
      as (_ & Hzero).
    destruct (Hzero eq_refl) as (rb0 & Hinit & _ & Happ).
    exists rb0. split; assumption.
Defined.

(** ** ReplayBuffer: buffers reached by [add], and what [sample] returns *)

Lemma py_slice_in_range {A : Type} (l : list A) (lo hi : Z) :
  0 <= lo <= hi -> hi <= len l ->
  py_slice l lo hi = take (Z.to_nat (hi - lo)) (drop (Z.to_nat lo) l) /\
  length (py_slice l lo hi) = Z.to_nat (hi - lo).
Proof.
  intros Hlo Hhi.
  assert (E : py_slice l lo hi = take (Z.to_nat (hi - lo)) (drop (Z.to_nat lo) l)).
  { unfold py_slice, py_clamp, py_norm.
    destruct (Z.ltb_spec lo 0); [lia|].
    destruct (Z.ltb_spec hi 0); [lia|].
    do 2 f_equal; lia. }
  split; [exact E|].
  rewrite E, length_take, length_drop. unfold len in Hhi. lia.
Qed.

Lemma py_index_in_range {A : Type} (l : list A) (i : Z) (x : A) :
  0 <= i -> py_index l i = Returned x -> l !! Z.to_nat i = Some x.
Proof.
  intros Hi. unfold py_index, py_norm.
  destruct (Z.ltb_spec i 0); [lia|].
  destruct (_ && _); [|discriminate].
  destruct (l !! Z.to_nat i); [|discriminate]. congruence.
Qed.

Lemma py_index_lookup {A : Type} (l : list A) (i : Z) (x : A) :
  0 <= i -> l !! Z.to_nat i = Some x -> py_index l i = Returned x.
Proof.
  intros Hi Hx. unfold py_index, py_norm.
  assert (Hlt := lookup_lt_Some _ _ _ Hx).
  destruct (Z.ltb_spec i 0); [lia|].
  destruct (Z.leb_spec 0 i); [|lia].
  destruct (Z.ltb_spec i (len l)); [|unfold len in *; lia].
  cbn [andb]. rewrite Hx. reflexivity.
Qed.

Lemma mapM_outcome_Forall2 {X Y : Type} (g : X -> outcome Y) (l : list X) (out : list Y) :
  mapM g l = Returned out -> Forall2 (fun x y => g x = Returned y) l out.
Proof.
  revert out. induction l as [|x l IH]; intros out Hrun.
  - injection Hrun as <-. constructor.
  - cbn [mapM] in Hrun.
    destruct (g x) as [y| |] eqn:Hg; cbn [mbind outcome_bind] in Hrun; [|discriminate..].
    destruct (mapM g l) as [ys| |]; cbn [mbind outcome_bind] in Hrun; [|discriminate..].
    injection Hrun as <-. constructor; [exact Hg|]. apply IH. reflexivity.
Qed.

Lemma take_at_Forall2 {A : Type} (arr : list A) (end_idxs : list Z) (out : list A) :
  Forall (fun e => 1 <= e) end_idxs ->
  ReplayBuffer.take_at arr end_idxs = Returned out ->
  Forall2 (fun e a => arr !! Z.to_nat (e - 1) = Some a) end_idxs out.
Proof.
  intros Hpos Hrun. unfold ReplayBuffer.take_at in Hrun.
  destruct end_idxs as [|e0 es]; [discriminate Hrun|].
  apply mapM_outcome_Forall2 in Hrun.
  revert Hpos. induction Hrun as [|e a es' out' He _ IH]; intros Hpos; constructor.
  - apply py_index_in_range; [|exact He]. apply Forall_cons in Hpos as [H1 _]. lia.
  - apply IH. apply Forall_cons in Hpos as [_ H2]. exact H2.
Qed.

Section ReplayBufferMore.
Context {State Action Reward : Type}.
Variable np_squeeze : State -> State.
Variable as_int32 : Action -> Action.
Variable as_float32 : Reward -> Reward.
Variable junk_states : nat -> State.
Variable junk_actions : nat -> Action.
Variable junk_rewards : nat -> Reward.
Variable junk_dones : nat -> bool.
Import ReplayBuffer.

Abbreviation buffer := (t State Action Reward).
Abbreviation add := (add np_squeeze as_int32 as_float32
                         junk_states junk_actions junk_rewards junk_dones).
Abbreviation add_all := (add_all np_squeeze as_int32 as_float32
                                 junk_states junk_actions junk_rewards junk_dones).
Abbreviation as_stored := (as_stored np_squeeze as_int32 as_float32).
Abbreviation holds_last := (holds_last np_squeeze as_int32 as_float32).

(** What is known of a buffer reached from a fresh one by at least one
    [add]. *)
Lemma add_all_reaches (n h b : Z) (ts : list (transition State Action Reward))
  (self : buffer) :
  0 < n -> ts <> [] ->
  add_all ts (__init__ n h b) = (self, Returned tt) ->
  allocated n self /\ holds_last n ts self /\
  history_length self = h /\ batch_size self = b.
Proof.
  intros Hn Hne Hrun.
  destruct ts as [|[[[s a] r] d] ts]; [congruence|].
  set (self0 := mk true n h b 0 0
                  (Some (np_empty (Z.to_nat n) junk_states))
                  (Some (np_empty (Z.to_nat n) junk_actions))
                  (Some (np_empty (Z.to_nat n) junk_rewards))
                  (Some (np_empty (Z.to_nat n) junk_dones))).
  assert (Hal0 : allocated n self0).
  { split; [reflexivity|]. do 4 eexists. cbn.
    repeat split; unfold len; rewrite length_np_empty; lia. }
  assert (Hh0 : holds_last n [] self0).
  { repeat split; cbn; try reflexivity; try (unfold len; simpl; lia).
    intros j tr Hj. discriminate Hj. }
  destruct (add_all_step np_squeeze as_int32 as_float32
              junk_states junk_actions junk_rewards junk_dones
              n ((s, a, r, d) :: ts) [] self0 Hn Hal0 Hh0)
    as (self' & Hrun' & Hal & Hh & Hhist & Hbatch).
  cbn [ReplayBuffer.add_all] in Hrun, Hrun'. unfold andthen in Hrun, Hrun'.
  rewrite add_fresh in Hrun by lia. fold self0 in Hrun.
  rewrite Hrun' in Hrun. injection Hrun as <-.
  cbn [app] in Hh.
  split; [exact Hal|]. split; [exact Hh|]. split; assumption.
Qed.

(** On any buffer whose arrays are allocated and whose write position is in
    range, [add] stores the transition in slot [current_idx] and touches no
    other slot and none of the parameters. *)
Theorem add_writes_one_slot (self : buffer) s a r d :
  allocated (maxlen self) self ->
  0 <= current_idx self < maxlen self ->
  exists self',
    add s a r d self = (self', Returned tt) /\
    slot self' (Z.to_nat (current_idx self)) = Some (as_stored (s, a, r, d)) /\
    (forall i, i <> Z.to_nat (current_idx self) -> slot self' i = slot self i) /\
    maxlen self' = maxlen self /\
    history_length self' = history_length self /\
    batch_size self' = batch_size self /\
    allocated (maxlen self) self'.
Proof.
  destruct self as [ini n h b idx cl oss oaa orr odd].
  cbn [maxlen current_idx history_length batch_size].
  intros (Hini & ss & aa & rr & dd & Hss & Haa & Hrr & Hdd & Ls & La & Lr & Ld) Hidx.
  cbn [initialized states actions rewards dones] in Hini, Hss, Haa, Hrr, Hdd.
  subst ini oss oaa orr odd.
  eexists. split; [eapply add_allocated; cbn; eauto|].
  cbn [maxlen current_idx history_length batch_size].
  split; [|split; [|split; [|split; [|split]]]]; try reflexivity.
  - rewrite slot_allocated.
    rewrite !list_lookup_insert_eq by (unfold len in *; lia). reflexivity.
  - intros i Hi. rewrite !slot_allocated.
    rewrite !list_lookup_insert_ne by congruence. reflexivity.
  - split; [reflexivity|]. do 4 eexists. cbn.
    repeat split; unfold len in *; rewrite length_insert; assumption.
Qed.

(** A buffer built with a capacity [maxlen <= 0] never stores anything:
    with a negative capacity the first [add] raises [ValueError] (from
    [np.empty]) and every later one [AttributeError], the arrays never having
    been assigned; with capacity 0 every [add] raises [IndexError].  In both
    cases [initialized] is set and [current_len] stays 0. *)
Theorem add_bad_capacity (n h b : Z) s1 a1 r1 d1 s2 a2 r2 d2 :
  n <= 0 ->
  exists self1 e1 e2,
    add s1 a1 r1 d1 (__init__ n h b) = (self1, Raised e1) /\
    add s2 a2 r2 d2 self1 = (self1, Raised e2) /\
    initialized self1 = true /\ current_len self1 = 0 /\
    (n < 0 -> e1 = ValueError /\ e2 = AttributeError) /\
    (n = 0 -> e1 = IndexError /\ e2 = IndexError).
Proof.
  intros Hn. destruct (Z.ltb_spec n 0) as [Hneg|Hzero].
  - exists (mk true n h b 0 0 None None None None), ValueError, AttributeError.
    unfold ReplayBuffer.add, andthen, allocate, __init__.
    cbn [initialized maxlen history_length batch_size current_idx current_len
         states actions rewards dones].
    destruct (Z.ltb_spec n 0); [|lia].
    repeat split; try reflexivity; lia.
  - assert (n = 0) as -> by lia.
    eexists. exists IndexError, IndexError.
    split; [reflexivity|]. split; [reflexivity|].
    repeat split; try reflexivity; lia.
Qed.

(** [sample] on a buffer that never saw an [add]. *)
Lemma sample_fresh_cases (n h b : Z) (draws : list Z) :
  sample (__init__ n h b : buffer) draws = Raised ValueError /\ 0 < b /\ 0 <= h \/
  sample (__init__ n h b : buffer) draws = Raised AttributeError /\ (b <= 0 \/ h < 0) \/
  sample (__init__ n h b : buffer) draws = Pending /\ draws = [] /\ h < 0.
Proof.
  unfold sample, _generate_idxs, __init__.
  destruct draws as [|r draws]; cbn [generate_loop]; change (len []) with 0;
    cbn [batch_size current_len history_length dones];
    (destruct (Z.ltb_spec 0 b); cbn [negb];
     [|right; left; split; [reflexivity|lia]]);
    unfold randint; rewrite Z.sub_0_l;
    (destruct (Z.leb_spec (- h) 0);
     [left; split; [reflexivity|lia]|]).
  - right. right. split; [reflexivity|]. split; [reflexivity|lia].
  - right. left. split; [reflexivity|lia].
Qed.

(** Before any [add], [sample] never returns a batch; given at least one
    draw it raises, [ValueError] for a positive [batch_size] and a
    non-negative [history_length]. *)
Theorem sample_before_add (n h b : Z) (draws : list Z) :
  (forall batch, sample (__init__ n h b : buffer) draws <> Returned batch) /\
  (draws <> [] ->
   sample (__init__ n h b : buffer) draws = Raised ValueError \/
   sample (__init__ n h b : buffer) draws = Raised AttributeError) /\
  (0 < b -> 0 <= h -> sample (__init__ n h b : buffer) draws = Raised ValueError).
Proof.
  pose proof (sample_fresh_cases n h b draws) as Hcases.
  split; [|split].
  - intros batch E. destruct Hcases as [[H _]|[[H _]|[H _]]]; congruence.
  - intros Hne. destruct Hcases as [[H _]|[[H _]|[_ [H _]]]]; auto. congruence.
  - intros Hb Hh. destruct Hcases as [[H _]|[[_ H]|[_ [_ H]]]]; [exact H|lia|lia].
Qed.

Lemma sample_returned_full (self : buffer) (draws : list Z) b_t b_tp1 b_a b_r b_d :
  sample self draws = Returned (b_t, b_tp1, b_a, b_r, b_d) ->
  exists start_idxs end_idxs ss aa rr dd,
    _generate_idxs self draws = Returned (start_idxs, end_idxs) /\
    states self = Some ss /\ actions self = Some aa /\
    rewards self = Some rr /\ dones self = Some dd /\
    b_t = map (fun '(start_idx, end_idx) => py_slice ss start_idx end_idx)
              (zip start_idxs end_idxs) /\
    b_tp1 = map (fun '(start_idx, end_idx) => py_slice ss (start_idx + 1) (end_idx + 1))
                (zip start_idxs end_idxs) /\
    take_at aa end_idxs = Returned b_a /\
    take_at rr end_idxs = Returned b_r /\
    take_at dd end_idxs = Returned b_d.
Proof.
  intros Hrun.
  destruct (sample_returned self draws _ _ _ _ _ Hrun)
    as (starts & ends & ss & Hgen & _ & Hss & _).
  exists starts, ends, ss.
  unfold sample in Hrun. rewrite Hgen, Hss in Hrun. cbn [mbind outcome_bind] in Hrun.
  rewrite (mapM_returned
             (fun '(start_idx, end_idx) =>
                ss0 ← getattr (Some ss); Returned (py_slice ss0 start_idx end_idx))
             (fun '(start_idx, end_idx) => py_slice ss start_idx end_idx)) in Hrun
    by (intros [s e]; reflexivity).
  rewrite (mapM_returned
             (fun '(start_idx, end_idx) =>
                ss0 ← getattr (Some ss);
                Returned (py_slice ss0 (start_idx + 1) (end_idx + 1)))
             (fun '(start_idx, end_idx) => py_slice ss (start_idx + 1) (end_idx + 1)))
    in Hrun by (intros [s e]; reflexivity).
  cbn [mbind outcome_bind] in Hrun.
  destruct (actions self) as [aa|] eqn:Haa;
    cbn [getattr mbind outcome_bind] in Hrun; [|discriminate].
  destruct (take_at aa ends) as [ba| |] eqn:Hta;
    cbn [mbind outcome_bind] in Hrun; [|discriminate..].
  destruct (rewards self) as [rr|] eqn:Hrr;
    cbn [getattr mbind outcome_bind] in Hrun; [|discriminate].
  destruct (take_at rr ends) as [br| |] eqn:Htr;
    cbn [mbind outcome_bind] in Hrun; [|discriminate..].
  destruct (dones self) as [dd|] eqn:Hdd;
    cbn [getattr mbind outcome_bind] in Hrun; [|discriminate].
  destruct (take_at dd ends) as [bd| |] eqn:Htd;
    cbn [mbind outcome_bind] in Hrun; [|discriminate..].
  injection Hrun as <- <- <- <- <-.
  exists aa, rr, dd. repeat split; assumption || reflexivity.
Qed.

Lemma Forall2_zip_map {X Y : Type} (g : X -> X) (f : X * X -> Y) (P : X -> Y -> Prop)
  (l : list X) :
  Forall (fun x => P x (f (x, g x))) l ->
  Forall2 P l (map f (zip l (map g l))).
Proof.
  induction 1 as [|x l Hx _ IH]; cbn [map zip zip_with]; constructor; assumption.
Qed.

(** On a buffer reached from a fresh one of capacity [maxlen >= 1] by
    [add] calls, with [history_length >= 1], every batch [sample] returns is
    complete: each window of [b_states_t] is the [history_length] stored
    states from its start index, each window of [b_states_tp1] the
    [history_length] stored states one index later, both of full length,
    and action, reward and done flag are those stored at the last index of
    the window, [end_idx - 1]; [end_idx] itself is below [current_len], so
    the extra state of the shifted window lies in the filled part. *)
Theorem sample_windows_complete (n h b : Z) (ts : list (transition State Action Reward))
  (self : buffer) (draws : list Z) b_t b_tp1 b_a b_r b_d :
  0 < n -> 1 <= h ->
  add_all ts (__init__ n h b) = (self, Returned tt) ->
  sample self draws = Returned (b_t, b_tp1, b_a, b_r, b_d) ->
  exists start_idxs end_idxs ss aa rr dd,
    _generate_idxs self draws = Returned (start_idxs, end_idxs) /\
    states self = Some ss /\ actions self = Some aa /\
    rewards self = Some rr /\ dones self = Some dd /\
    Forall2 (fun start_idx end_idx =>
               end_idx = start_idx + h /\ 0 <= start_idx /\ end_idx < current_len self)
            start_idxs end_idxs /\
    Forall2 (fun start_idx w =>
               w = take (Z.to_nat h) (drop (Z.to_nat start_idx) ss) /\
               length w = Z.to_nat h)
            start_idxs b_t /\
    Forall2 (fun start_idx w =>
               w = take (Z.to_nat h) (drop (Z.to_nat (start_idx + 1)) ss) /\
               length w = Z.to_nat h)
            start_idxs b_tp1 /\
    Forall2 (fun end_idx a => aa !! Z.to_nat (end_idx - 1) = Some a) end_idxs b_a /\
    Forall2 (fun end_idx r => rr !! Z.to_nat (end_idx - 1) = Some r) end_idxs b_r /\
    Forall2 (fun end_idx d => dd !! Z.to_nat (end_idx - 1) = Some d) end_idxs b_d.
Proof.
  intros Hn Hh Hreach Hrun.
  destruct (sample_returned_full self draws _ _ _ _ _ Hrun)
    as (starts & ends & ss & aa & rr & dd & Hgen & Hss & Haa & Hrr & Hdd
        & Hbt & Hbtp1 & Hta & Htr & Htd).
  assert (Hts : ts <> []).
  { intros ->. cbn in Hreach. injection Hreach as <-.
    destruct (sample_fresh_cases n h b draws) as [[H _]|[[H _]|[H _]]]; congruence. }
  destruct (add_all_reaches n h b ts self Hn Hts Hreach)
    as ((_ & ss' & aa' & rr' & dd' & Hss' & Haa' & Hrr' & Hdd' & Ls & La & Lr & Ld)
        & (_ & _ & Hlen & _) & Hhist & _).
  rewrite Hss in Hss'. rewrite Haa in Haa'. rewrite Hrr in Hrr'. rewrite Hdd in Hdd'.
  injection Hss' as <-. injection Haa' as <-. injection Hrr' as <-. injection Hdd' as <-.
  destruct (generate_idxs_sound self draws starts ends Hgen)
    as ((_ & Hin & Hends & _) & _).
  rewrite Hhist in Hin, Hends.
  assert (Hfull : current_len self <= n) by lia.
  exists starts, ends, ss, aa, rr, dd.
  split; [exact Hgen|]. do 4 (split; [assumption|]).
  assert (Hpos : Forall (fun e => 1 <= e) ends).
  { subst ends. clear -Hin Hh.
    induction Hin as [|s0 l Hs0 _ IH]; cbn [map]; constructor; [lia|exact IH]. }
  split; [|split; [|split; [|split; [|split]]]].
  - subst ends. clear -Hin. induction Hin as [|s0 l Hs0 _ IH]; cbn [map]; constructor.
    + lia.
    + exact IH.
  - subst b_t ends. apply Forall2_zip_map.
    eapply Forall_impl; [exact Hin|]. intros s0 Hs0. cbv beta iota in Hs0 |- *.
    destruct (py_slice_in_range ss s0 (s0 + h)) as (E & L); [lia|lia|].
    split; [rewrite E; f_equal; lia|rewrite L; f_equal; lia].
  - subst b_tp1 ends. apply Forall2_zip_map.
    eapply Forall_impl; [exact Hin|]. intros s0 Hs0. cbv beta iota in Hs0 |- *.
    destruct (py_slice_in_range ss (s0 + 1) (s0 + h + 1)) as (E & L); [lia|lia|].
    split; [rewrite E; f_equal; lia|rewrite L; f_equal; lia].
  - apply take_at_Forall2; assumption.
  - apply take_at_Forall2; assumption.
  - apply take_at_Forall2; assumption.
Qed.

Lemma slot_lookups (self : buffer) ss aa rr dd (i : nat) s a r d :
  states self = Some ss -> actions self = Some aa ->
  rewards self = Some rr -> dones self = Some dd ->
  slot self i = Some (s, a, r, d) ->
  ss !! i = Some s /\ aa !! i = Some a /\ rr !! i = Some r /\ dd !! i = Some d.
Proof.
  destruct self as [ini n h b idx cl oss oaa orr odd].
  cbn [states actions rewards dones].
  intros -> -> -> ->. rewrite slot_allocated.
  destruct (ss !! i); [|discriminate]. destruct (aa !! i); [|discriminate].
  destruct (rr !! i); [|discriminate]. destruct (dd !! i); [|discriminate].
  cbn. intros [= -> -> -> ->]. repeat split.
Qed.

Lemma take_two_drop {A : Type} (l : list A) (i : nat) (x y : A) :
  l !! i = Some x -> l !! S i = Some y -> take 2 (drop i l) = [x; y].
Proof.
  intros Hx Hy. rewrite (drop_S l x i Hx), (drop_S l y (S i) Hy). reflexivity.
Qed.

Lemma take_one_drop {A : Type} (l : list A) (i : nat) (x : A) :
  l !! i = Some x -> take 1 (drop i l) = [x].
Proof. intros Hx. rewrite (drop_S l x i Hx). reflexivity. Qed.

(** [sample] does not keep its windows clear of the write position.  On a
    buffer of capacity [n] that has wrapped ([k > n] transitions added, write
    position [c = k mod n] with [1 <= c <= n - 2]), with a history of two and
    the newest transition not [done], the draw [c - 1] is accepted and the
    stacked state it returns is the newest stored state followed by the
    oldest one, with the action, reward and done flag of the oldest. *)
Theorem sample_spans_write_position (n : Z) (ts : list (transition State Action Reward))
  (self : buffer) s_new a_new r_new s_old a_old r_old d_old :
  n < len ts -> 1 <= len ts mod n -> len ts mod n + 2 <= n ->
  ts !! Z.to_nat (len ts - 1) = Some (s_new, a_new, r_new, false) ->
  ts !! Z.to_nat (len ts - n) = Some (s_old, a_old, r_old, d_old) ->
  add_all ts (__init__ n 2 1) = (self, Returned tt) ->
  exists b_tp1,
    sample self [len ts mod n - 1] =
      Returned ([[np_squeeze s_new; np_squeeze s_old]], b_tp1,
                [as_int32 a_old], [as_float32 r_old], [d_old]).
Proof.
  set (k := len ts). set (c := k mod n).
  intros Hwrap Hc1 Hc2 Hnew Hold Hreach.
  assert (Hn : 0 < n) by lia.
  assert (Hts : ts <> []) by (intros ->; unfold k, len in Hwrap; simpl in Hwrap; lia).
  destruct (add_all_reaches n 2 1 ts self Hn Hts Hreach)
    as ((_ & ss & aa & rr & dd & Hss & Haa & Hrr & Hdd & Ls & La & Lr & Ld)
        & (_ & _ & Hlen & Hslots) & Hhist & Hbatch).
  fold k in Hlen, Hslots.
  assert (Hdiv := Z.div_mod k n ltac:(lia)). fold c in Hdiv.
  assert (Hm1 : (k - 1) mod n = c - 1).
  { symmetry. apply (Z.mod_unique_pos (k - 1) n (k / n) (c - 1)); lia. }
  assert (Hm2 : (k - n) mod n = c).
  { symmetry. apply (Z.mod_unique_pos (k - n) n (k / n - 1) c); lia. }
  pose proof (Hslots _ _ Hnew) as Hsnew. rewrite Z2Nat.id in Hsnew by lia.
  rewrite Hm1 in Hsnew. specialize (Hsnew ltac:(lia)).
  pose proof (Hslots _ _ Hold) as Hsold. rewrite Z2Nat.id in Hsold by lia.
  rewrite Hm2 in Hsold. specialize (Hsold ltac:(lia)).
  apply (slot_lookups self ss aa rr dd) in Hsnew as (Hs1 & _ & _ & Hd1); try assumption.
  apply (slot_lookups self ss aa rr dd) in Hsold as (Hs2 & Ha2 & Hr2 & Hd2); try assumption.
  replace (Z.to_nat c) with (S (Z.to_nat (c - 1))) in Hs2 by lia.
  assert (Hgen : _generate_idxs self [c - 1] = Returned ([c - 1], [c + 1])).
  { unfold _generate_idxs.
    rewrite (generate_loop_accepts self dd [c - 1] Hdd [] []).
    - cbn [app map]. rewrite Hhist. do 3 f_equal. lia.
    - apply NoDup_singleton.
    - repeat constructor; lia.
    - repeat constructor. rewrite Hhist.
      destruct (py_slice_in_range dd (c - 1) (c - 1 + 2 - 1)) as (E & _); [lia|lia|].
      rewrite E. replace (Z.to_nat (c - 1 + 2 - 1 - (c - 1))) with 1%nat by lia.
      rewrite (take_one_drop dd _ false Hd1). reflexivity.
    - rewrite Hbatch. reflexivity. }
  unfold sample. rewrite Hgen. cbn [mbind outcome_bind zip zip_with mapM].
  rewrite Hss, Haa, Hrr, Hdd. cbn [getattr mbind outcome_bind mret outcome_ret].
  unfold take_at. cbn [mapM mbind outcome_bind mret outcome_ret].
  replace (c + 1 - 1) with c by lia.
  rewrite (py_index_lookup aa c (as_int32 a_old)) by (lia || assumption).
  rewrite (py_index_lookup rr c (as_float32 r_old)) by (lia || assumption).
  rewrite (py_index_lookup dd c d_old) by (lia || assumption).
  cbn [mbind outcome_bind mret outcome_ret].
  destruct (py_slice_in_range ss (c - 1) (c + 1)) as (E & _); [lia|lia|].
  rewrite E. replace (Z.to_nat (c + 1 - (c - 1))) with 2%nat by lia.
  rewrite (take_two_drop ss _ _ _ Hs1 Hs2).
  eexists. reflexivity.
Qed.

End ReplayBufferMore.

(** [add_writes_one_slot] on a buffer of capacity four that has wrapped
    once (write position 1). *)
Lemma add_writes_one_slot_witness :
  exists self',
    ReplayBuffer.add (fun s => s) (fun a => a) (fun r => r)
      (fun _ => 0) (fun _ => 0) (fun _ => 0) (fun _ => false)
      99 7 8 true
      (ReplayBuffer.mk true 4 2 2 1 4
         (Some [4; 1; 2; 3]) (Some [0; 0; 0; 0]) (Some [0; 0; 0; 0])
         (Some [false; false; true; false]))
      = (self', Returned tt) /\
    ReplayBuffer.slot self' 1 = Some (99, 7, 8, true) /\
    ReplayBuffer.slot self' 2 = Some (2, 0, 0, true).
Proof.
  destruct (add_writes_one_slot (fun s : Z => s) (fun a : Z => a) (fun r : Z => r)
              (fun _ => 0) (fun _ => 0) (fun _ => 0) (fun _ => false)
              (ReplayBuffer.mk true 4 2 2 1 4
                 (Some [4; 1; 2; 3]) (Some [0; 0; 0; 0]) (Some [0; 0; 0; 0])
                 (Some [false; false; true; false]))
              99 7 8 true)
    as (self' & Hadd & Hslot & Hothers & _).
  - split; [reflexivity|].
    exists [4; 1; 2; 3], [0; 0; 0; 0], [0; 0; 0; 0], [false; false; true; false].
    repeat split; reflexivity.
  - cbn. lia.
  - exists self'. split; [exact Hadd|]. split; [exact Hslot|].
    rewrite (Hothers 2%nat); [reflexivity|]. cbn. lia.
Defined.

(** [add_bad_capacity] for a capacity of -1. *)
Lemma add_bad_capacity_witness :
  exists self1,
    int_add_all [(5, 0, 0, false)] (ReplayBuffer.__init__ (-1) 1 1)
      = (self1, Raised ValueError) /\
    int_add_all [(6, 0, 0, false)] self1 = (self1, Raised AttributeError).
Proof.
  destruct (add_bad_capacity (fun s : Z => s) (fun a : Z => a) (fun r : Z => r)
              (fun _ => 0) (fun _ => 0) (fun _ => 0) (fun _ => false)
              (-1) 1 1 5 0 0 false 6 0 0 false ltac:(lia))
    as (self1 & e1 & e2 & Hfirst & Hlater & _ & _ & Hneg & _).
  destruct (Hneg ltac:(lia)) as [-> ->].
  exists self1. unfold int_add_all. cbn [ReplayBuffer.add_all].
  unfold ReplayBuffer.andthen. rewrite Hfirst, Hlater. split; reflexivity.
Defined.

(** [sample_before_add] with the defaults of the constructor. *)
Lemma sample_before_add_witness :
  ReplayBuffer.sample (ReplayBuffer.__init__ 10 1 32 : ReplayBuffer.t Z Z Z) [0; 1]
    = Raised ValueError.
Proof.
  apply (sample_before_add (State := Z) (Action := Z) (Reward := Z) 10 1 32 [0; 1]); lia.
Defined.

(** [sample_windows_complete] on the buffer of capacity 10 and history
    length 3 used above. *)
Lemma sample_windows_complete_witness :
  exists b_t b_tp1 b_a b_r b_d,
    ReplayBuffer.sample
      (buffer_after 10 3 2
         [false; false; false; false; true; false; false; false; false; false])
      [3; 2; 5] = Returned (b_t, b_tp1, b_a, b_r, b_d) /\
    Forall (fun w => length w = 3%nat) b_t /\
    Forall (fun w => length w = 3%nat) b_tp1.
Proof.
  eexists. eexists. eexists. eexists. eexists.
  split; [vm_compute; reflexivity|].
  edestruct (sample_windows_complete (fun s : Z => s) (fun a : Z => a) (fun r : Z => r)
               (fun _ => 0) (fun _ => 0) (fun _ => 0) (fun _ => false)
               10 3 2
               (run_of [false; false; false; false; true;
                        false; false; false; false; false])
               (buffer_after 10 3 2
                  [false; false; false; false; true; false; false; false; false; false])
               [3; 2; 5])
    as (starts & ends & ss & aa & rr & dd & _ & _ & _ & _ & _ & _ & Ht & Htp1 & _).
  - lia.
  - lia.
  - vm_compute. reflexivity.
  - vm_compute. reflexivity.
  - split.
    + clear -Ht. induction Ht as [|s w l l' [_ Hw] _ IH]; constructor; assumption.
    + clear -Htp1. induction Htp1 as [|s w l l' [_ Hw] _ IH]; constructor; assumption.
Defined.

(** [sample_spans_write_position] on a buffer of capacity four after six
    transitions: the window drawn at index 1 stacks state 5, the newest, in
    front of state 2, the oldest. *)
Lemma sample_spans_write_position_witness :
  exists b_tp1,
    ReplayBuffer.sample
      (buffer_after 4 2 1 [false; false; false; false; false; false]) [1]
    = Returned ([[5; 2]], b_tp1, [0], [0], [false]).
Proof.
  apply (sample_spans_write_position (fun s : Z => s) (fun a : Z => a) (fun r : Z => r)
           (fun _ => 0) (fun _ => 0) (fun _ => 0) (fun _ => false)
           4 (run_of [false; false; false; false; false; false])
           (buffer_after 4 2 1 [false; false; false; false; false; false])
           5 0 0 2 0 0 false).
  - vm_compute. reflexivity.
  - vm_compute. discriminate.
  - vm_compute. discriminate.
  - reflexivity.
  - reflexivity.
  - vm_compute. reflexivity.
Defined.

(** ** Epsilon-greedy: extreme values of [epsilon], empty input, batches *)

(** Since the draw of [np.random.random()] lies in [[0, 1)]: with
    [epsilon >= 1] the policy always explores and, on two or more Q-values,
    returns the index the choice falls on whatever the Q-values are; with
    [epsilon < 0] it never explores and returns the index of the first
    maximal Q-value. *)
Theorem egreedy_extreme_epsilon (l : list Q) (epsilon u : Q) (r : Z) :
  (0 <= u)%Q -> (u < 1)%Q ->
  ((1 <= epsilon)%Q -> (2 <= length l)%nat ->
   egreedy_police (np_array l) epsilon u r = Returned (r mod len l)) /\
  ((epsilon < 0)%Q -> l <> [] ->
   exists i, egreedy_police (np_array l) epsilon u r = Returned i /\
             first_argmax l i).
Proof.
  intros Hu0 Hu1. split.
  - intros Heps Hlen. unfold egreedy_police.
    assert (Hcmp : Qle_bool u epsilon = true).
    { apply Qle_bool_iff. apply Qlt_le_weak. eapply Qlt_le_trans; eassumption. }
    rewrite Hcmp.
    assert (Hsq : np_squeeze (np_array l) = np_array l).
    { unfold np_squeeze, np_array. simpl.
      destruct (Nat.eqb_spec (length l) 1); [lia|]. reflexivity. }
    rewrite Hsq. cbn [np_len np_array shape mbind outcome_bind].
    apply random_choice_arange. unfold len. lia.
  - intros Heps Hne. unfold egreedy_police.
    rewrite Qle_bool_false by (eapply Qlt_le_trans; eassumption).
    apply (np_argmax_correct (np_squeeze (np_array l))). exact Hne.
Qed.

(** [egreedy_extreme_epsilon] with [epsilon = 1] and with [epsilon = -1] on
    three Q-values. *)
Lemma egreedy_extreme_epsilon_witness :
  egreedy_police (np_array [1%Q; 3%Q; 2%Q]) 1%Q (1 # 2)%Q 8 = Returned 2 /\
  exists i, egreedy_police (np_array [1%Q; 3%Q; 2%Q]) (- (1))%Q (1 # 2)%Q 8 = Returned i /\
            first_argmax [1%Q; 3%Q; 2%Q] i.
Proof.
  destruct (egreedy_extreme_epsilon [1%Q; 3%Q; 2%Q] 1%Q (1 # 2)%Q 8)
    as (Hexplore & _); [discriminate|reflexivity|].
  destruct (egreedy_extreme_epsilon [1%Q; 3%Q; 2%Q] (- (1))%Q (1 # 2)%Q 8)
    as (_ & Hgreedy); [discriminate|reflexivity|].
  split.
  - apply Hexplore; [discriminate|simpl; lia].
  - apply Hgreedy; [reflexivity|discriminate].
Defined.

(** An array without Q-values, flat or as a batch of one row, is refused in
    both branches: [np.random.choice] of an empty range and [np.argmax] of an
    empty array raise [ValueError]. *)
Theorem egreedy_no_actions (epsilon u : Q) (r : Z) :
  egreedy_police (np_array []) epsilon u r = Raised ValueError /\
  egreedy_police (mk_ndarray [1%nat; 0%nat] []) epsilon u r = Raised ValueError.
Proof.
  unfold egreedy_police. destruct (Qle_bool u epsilon); split; reflexivity.
Qed.

(** Q-values given as a batch.  A batch of one row is treated as that row.
    A batch of [k >= 2] rows of [n >= 2] actions is not refused: exploring
    chooses among the [k] rows instead of the [n] actions, and the greedy
    branch returns the index of the first maximal value in the flattened
    batch, which is [n] or more when that value lies beyond the first row. *)
Theorem egreedy_batch (k n : nat) (l : list Q) (epsilon u : Q) (r : Z) :
  length l = (k * n)%nat -> (2 <= n)%nat ->
  (k = 1%nat ->
   egreedy_police (mk_ndarray [k; n] l) epsilon u r
   = egreedy_police (np_array l) epsilon u r) /\
  ((2 <= k)%nat ->
   ((u <= epsilon)%Q ->
    egreedy_police (mk_ndarray [k; n] l) epsilon u r = Returned (r mod Z.of_nat k)) /\
   ((epsilon < u)%Q ->
    exists i, egreedy_police (mk_ndarray [k; n] l) epsilon u r = Returned i /\
              first_argmax l i)).
Proof.
  intros Hlen Hn. split.
  - intros ->. rewrite Nat.mul_1_l in Hlen.
    unfold egreedy_police, np_squeeze, np_array. rewrite Hlen. cbn [shape flat List.filter].
    destruct (Nat.eqb_spec n 1); [lia|]. reflexivity.
  - intros Hk.
    assert (Hsq : np_squeeze (mk_ndarray [k; n] l) = mk_ndarray [k; n] l).
    { unfold np_squeeze. cbn [shape flat List.filter].
      destruct (Nat.eqb_spec k 1); [lia|]. destruct (Nat.eqb_spec n 1); [lia|].
      reflexivity. }
    unfold egreedy_police. rewrite Hsq. split.
    + intros Hu. rewrite Qle_bool_true by exact Hu.
      cbn [np_len shape mbind outcome_bind].
      apply random_choice_arange. lia.
    + intros Hu. rewrite Qle_bool_false by exact Hu.
      apply (np_argmax_correct (mk_ndarray [k; n] l)). cbn [flat].
      intros ->. simpl in Hlen. nia.
Qed.

(** [egreedy_batch] on two rows of three Q-values: exploring returns a row
    index, here 1. *)
Lemma egreedy_batch_witness :
  egreedy_police (mk_ndarray [2%nat; 3%nat] [1%Q; 2%Q; 3%Q; 4%Q; 9%Q; 6%Q])
    (1 # 2)%Q (1 # 4)%Q 5 = Returned 1.
Proof.
  apply (egreedy_batch 2 3 [1%Q; 2%Q; 3%Q; 4%Q; 9%Q; 6%Q] (1 # 2)%Q (1 # 4)%Q 5).
  - reflexivity.
  - lia.
  - lia.
  - discriminate.
Defined.

(** ** DQNAgent.select_action *)

Section DQNAgentFacts.
Context {History Observation Stacked : Type}.
Variable history_append : History -> Observation -> History * outcome unit.
Variable history_get_data : History -> Stacked.
Variable exploration_schedule : Z -> Q.
Variable predict : Stacked -> outcome ndarray.
Import DQNAgent.

Abbreviation select_action :=
  (select_action history_append history_get_data exploration_schedule predict).

(** When the state is appended to the history, [select_action] records
    the new history and the value of the exploration schedule at the current
    step, whichever branch runs.  In the random branch the model is not
    consulted: for [num_actions >= 1] the action is the index the choice
    falls on, in [[0, num_actions)], and for [num_actions <= 0] the choice
    raises [ValueError].  In the greedy branch the action is the index of the
    first maximal value of the Q-values the model predicts for the stacked
    history. *)
Theorem select_action_spec (self : t History) (state : Observation) (u : Q) (r : Z)
  (history : History) :
  history_append (states_history self) state = (history, Returned tt) ->
  let self' := mk history (i_step self) (exploration_schedule (i_step self))
                  (num_actions self) in
  ((u <= exploration_schedule (i_step self))%Q -> 1 <= num_actions self ->
   select_action self state u r = (self', Returned (r mod num_actions self)) /\
   0 <= r mod num_actions self < num_actions self) /\
  ((u <= exploration_schedule (i_step self))%Q -> num_actions self <= 0 ->
   select_action self state u r = (self', Raised ValueError)) /\
  (forall Q_values,
      (exploration_schedule (i_step self) < u)%Q ->
      predict (history_get_data history) = Returned Q_values ->
      flat Q_values <> [] ->
      exists i, select_action self state u r = (self', Returned i) /\
                first_argmax (flat Q_values) i).
Proof.
  intros Happ self'. unfold DQNAgent.select_action. rewrite Happ.
  cbn [epsilon num_actions]. split; [|split].
  - intros Hu Hn. apply Qle_bool_iff in Hu. rewrite Hu.
    rewrite random_choice_arange by lia.
    split; [reflexivity|]. apply Z.mod_pos_bound. lia.
  - intros Hu Hn. apply Qle_bool_iff in Hu. rewrite Hu.
    unfold np_arange. replace (Z.to_nat (num_actions self)) with 0%nat by lia.
    reflexivity.
  - intros Q_values Hu Hpred Hne. rewrite Qle_bool_false by exact Hu.
    rewrite Hpred. cbn [mbind outcome_bind].
    destruct (np_argmax_correct Q_values Hne) as (i & Hi & Hmax).
    exists i. rewrite Hi. split; [reflexivity|exact Hmax].
Qed.

End DQNAgentFacts.

(** [select_action_spec] for an agent with a single action whose history is
    the list of the frames seen: exploring returns action 0. *)
Lemma select_action_spec_witness :
  DQNAgent.select_action
    (fun (h : list Z) (x : Z) => (h ++ [x], Returned tt))
    (fun h : list Z => h)
    (fun _ => 1%Q)
    (fun _ : list Z => Returned (np_array [5%Q]))
    (DQNAgent.mk [4] 0 0%Q 1) 7 (1 # 2)%Q 3
  = (DQNAgent.mk [4; 7] 0 1%Q 1, Returned 0).
Proof.
  eapply (select_action_spec
            (fun (h : list Z) (x : Z) => (h ++ [x], Returned tt))
            (fun h : list Z => h)
            (fun _ => 1%Q)
            (fun _ : list Z => Returned (np_array [5%Q]))
            (DQNAgent.mk [4] 0 0%Q 1) 7 (1 # 2)%Q 3).
  - reflexivity.
  - discriminate.
  - cbn. lia.
Defined.

(** ** Linear schedule *)

Section LinearFacts.
Local Open Scope Q_scope.

Lemma linear_decay_returns (epsilon_final stop_exploration epsilon_start : Q) :
  ~ stop_exploration == 0 ->
  linear_decay epsilon_final stop_exploration epsilon_start =
    Returned (fun step =>
                if Qle_bool step stop_exploration
                then - (epsilon_start - epsilon_final) / stop_exploration * step
                     + epsilon_start
                else epsilon_final).
Proof.
  intros Hstop. unfold linear_decay. cbn [num_div num_neg num_sub Q_number].
  destruct (Qeq_bool stop_exploration 0) eqn:E.
  - apply Qeq_bool_iff in E. contradiction.
  - reflexivity.
Qed.

(** The value on the sloped part, written with the non-negative rate of
    descent. *)
Lemma linear_slope (epsilon_final stop_exploration epsilon_start step : Q) :
  0 < stop_exploration ->
  - (epsilon_start - epsilon_final) / stop_exploration * step + epsilon_start
  == epsilon_final
     + (epsilon_start - epsilon_final) / stop_exploration * (stop_exploration - step).
Proof. intros Hstop. field. lra. Qed.

Lemma rate_nonneg (epsilon_final stop_exploration epsilon_start : Q) :
  0 < stop_exploration -> epsilon_final <= epsilon_start ->
  0 <= (epsilon_start - epsilon_final) / stop_exploration.
Proof.
  intros Hstop Hle. apply Qmult_le_0_compat; [lra|].
  apply Qinv_le_0_compat. lra.
Qed.

Lemma Qmult_le_nonneg_l (x y z : Q) : 0 <= z -> x <= y -> z * x <= z * y.
Proof.
  intros Hz Hxy. rewrite (Qmult_comm z x), (Qmult_comm z y).
  apply Qmult_le_compat_r; assumption.
Qed.

(** [linear_decay] with [stop_exploration = 0] raises [ZeroDivisionError].
    With [stop_exploration > 0] it returns a schedule that is
    [epsilon_start] at step 0 and [epsilon_final] at [stop_exploration] and
    at every later step; when [epsilon_final <= epsilon_start] the schedule
    never increases, and from step 0 on it stays between [epsilon_final] and
    [epsilon_start]. *)
Theorem linear_decay_spec (epsilon_final stop_exploration epsilon_start : Q) :
  (stop_exploration == 0 ->
   linear_decay epsilon_final stop_exploration epsilon_start
     = Raised ZeroDivisionError) /\
  (0 < stop_exploration ->
   exists get_eps,
     linear_decay epsilon_final stop_exploration epsilon_start = Returned get_eps /\
     get_eps 0 == epsilon_start /\
     get_eps stop_exploration == epsilon_final /\
     (forall step, stop_exploration < step -> get_eps step = epsilon_final) /\
     (epsilon_final <= epsilon_start ->
      (forall s1 s2, s1 <= s2 -> get_eps s2 <= get_eps s1) /\
      (forall step, 0 <= step -> epsilon_final <= get_eps step <= epsilon_start))).
Proof.
  split.
  - intros Hzero. unfold linear_decay. cbn [num_div num_neg num_sub Q_number].
    apply Qeq_bool_iff in Hzero. rewrite Hzero. reflexivity.
  - intros Hstop. eexists. split; [apply linear_decay_returns; lra|].
    cbv beta. split; [|split; [|split]].
    + rewrite Qle_bool_true by lra. ring.
    + rewrite Qle_bool_true by lra. field. lra.
    + intros step Hstep. rewrite Qle_bool_false by exact Hstep. reflexivity.
    + intros Hle.
      pose proof (rate_nonneg _ _ _ Hstop Hle) as Hrate.
      assert (Hsloped : forall step, step <= stop_exploration ->
                epsilon_final <=
                - (epsilon_start - epsilon_final) / stop_exploration * step
                + epsilon_start).
      { intros step Hstep. rewrite linear_slope by exact Hstop.
        assert (0 <= (epsilon_start - epsilon_final) / stop_exploration
                     * (stop_exploration - step))
          by (apply Qmult_le_0_compat; [exact Hrate|lra]).
        lra. }
      split.
      * intros s1 s2 Hs.
        destruct (Qle_bool s2 stop_exploration) eqn:E2.
        -- apply Qle_bool_iff in E2. rewrite Qle_bool_true by lra.
           rewrite !linear_slope by exact Hstop.
           assert ((epsilon_start - epsilon_final) / stop_exploration
                     * (stop_exploration - s2)
                   <= (epsilon_start - epsilon_final) / stop_exploration
                     * (stop_exploration - s1))
             by (apply Qmult_le_nonneg_l; [exact Hrate|lra]).
           lra.
        -- destruct (Qle_bool s1 stop_exploration) eqn:E1.
           ++ apply Qle_bool_iff in E1. apply Hsloped. exact E1.
           ++ apply Qle_refl.
      * intros step Hstep.
        destruct (Qle_bool step stop_exploration) eqn:E.
        -- apply Qle_bool_iff in E. split; [apply Hsloped; exact E|].
           assert (0 <= (epsilon_start - epsilon_final) / stop_exploration * step)
             by (apply Qmult_le_0_compat; [exact Hrate|exact Hstep]).
           assert (- (epsilon_start - epsilon_final) / stop_exploration * step
                   == - ((epsilon_start - epsilon_final) / stop_exploration * step))
             by (field; lra).
           lra.
        -- split; [apply Qle_refl|exact Hle].
Qed.

(** [linear_decay] is [piecewise_linear_decay] with a single boundary: for a
    non-zero [epsilon_start] and [stop_exploration], the schedule it returns
    takes the same value at every step as the one-segment schedule from
    [epsilon_start] to [epsilon_final] ending at [stop_exploration]. *)
Theorem linear_decay_one_segment (epsilon_final stop_exploration epsilon_start : Q) :
  ~ stop_exploration == 0 -> ~ epsilon_start == 0 ->
  exists linear piecewise,
    linear_decay epsilon_final stop_exploration epsilon_start = Returned linear /\
    piecewise_linear_decay [stop_exploration] [epsilon_final / epsilon_start]
      epsilon_start = Returned piecewise /\
    forall step, linear step == piecewise step.
Proof.
  intros Hstop Hstart. eexists. eexists.
  split; [apply linear_decay_returns; exact Hstop|].
  split.
  - change (piecewise_linear_decay [stop_exploration] [epsilon_final / epsilon_start]
              epsilon_start)
      with (decay_rates ←
              decay_rates_of [epsilon_start; epsilon_start * (epsilon_final / epsilon_start)]
                             (decay_steps_of [0; stop_exploration]);
            Returned (get_epsilon [0; stop_exploration] decay_rates
                        [epsilon_start;
                         epsilon_start * (epsilon_final / epsilon_start)])).
    rewrite decay_rates_cons by lra.
    reflexivity.
  - intros step. cbv beta. rewrite get_epsilon_cons.
    destruct (Qle_bool step stop_exploration).
    + field. repeat split;
        first [assumption | intro E; apply Hstop; lra | intro E; apply Hstart; lra].
    + change (get_epsilon [stop_exploration] []
                [epsilon_start * (epsilon_final / epsilon_start)] step)
        with (epsilon_start * (epsilon_final / epsilon_start)).
      field. repeat split;
        first [assumption | intro E; apply Hstop; lra | intro E; apply Hstart; lra].
Qed.

End LinearFacts.

(** [linear_decay_spec] for [linear_decay(0.1, 100)]: the value half way. *)
Lemma linear_decay_spec_witness :
  exists get_eps,
    linear_decay (1 # 10)%Q 100%Q 1%Q = Returned get_eps /\
    (get_eps 0 == 1)%Q /\ (get_eps 100 == 1 # 10)%Q /\
    (1 # 10 <= get_eps 50 <= 1)%Q.
Proof.
  destruct (linear_decay_spec (1 # 10)%Q 100%Q 1%Q) as (_ & Hpos).
  destruct (Hpos ltac:(reflexivity))
    as (get_eps & Hrun & Hzero & Hstop & _ & Hmono).
  destruct (Hmono ltac:(discriminate)) as (_ & Hbounds).
  exists get_eps. split; [exact Hrun|]. split; [exact Hzero|]. split; [exact Hstop|].
  apply Hbounds. discriminate.
Defined.

(** [linear_decay_one_segment] for [linear_decay(0.1, 100)]. *)
Lemma linear_decay_one_segment_witness :
  exists linear piecewise,
    linear_decay (1 # 10)%Q 100%Q 1%Q = Returned linear /\
    piecewise_linear_decay [100%Q] [(1 # 10) / 1]%Q 1%Q = Returned piecewise /\
    (linear 50 == piecewise 50)%Q.
Proof.
  destruct (linear_decay_one_segment (1 # 10)%Q 100%Q 1%Q)
    as (linear & piecewise & Hl & Hp & Heq); [discriminate|discriminate|].
  exists linear, piecewise. split; [exact Hl|]. split; [exact Hp|]. apply Heq.
Defined.

(** ** Piecewise-linear schedule: surplus values, empty segments *)

Section PiecewiseMore.
Local Open Scope Q_scope.

(** One step of the construction of the slopes, whatever the segment. *)
Lemma decay_rates_step (b0 b1 y0 y1 : Q) (bs ys : list Q) :
  decay_rates_of (y0 :: y1 :: ys) (decay_steps_of (b0 :: b1 :: bs)) =
    r0 ← (if Qeq_bool (b1 - b0) 0 then Raised ZeroDivisionError
          else Returned (- (y0 - y1) / (b1 - b0)));
    rates ← decay_rates_of (y1 :: ys) (decay_steps_of (b1 :: bs));
    Returned (r0 :: rates).
Proof.
  unfold decay_rates_of, decay_steps_of.
  rewrite !zip_removelast_tail. reflexivity.
Qed.

(** The slopes are computed in order and every failure is a division by
    zero: an empty segment among those that have a value makes the
    construction raise. *)
Lemma decay_rates_empty_segment (bs : list Q) : forall (i : nat) (b0 y0 : Q) (ys : list Q) x0 x1,
  (b0 :: bs) !! i = Some x0 -> bs !! i = Some x1 -> x1 == x0 ->
  (i < length ys)%nat ->
  decay_rates_of (y0 :: ys) (decay_steps_of (b0 :: bs)) = Raised ZeroDivisionError.
Proof.
  induction bs as [|b1 bs IH]; intros i b0 y0 ys x0 x1 Hx0 Hx1 Heq Hi.
  - discriminate Hx1.
  - destruct ys as [|y1 ys]; [simpl in Hi; lia|].
    rewrite decay_rates_step.
    destruct (Qeq_bool (b1 - b0) 0) eqn:E; [reflexivity|].
    cbn [mbind outcome_bind].
    destruct i as [|i].
    + injection Hx0 as <-. injection Hx1 as <-.
      assert (Qeq_bool (b1 - b0) 0 = true) by (apply Qeq_bool_iff; lra).
      congruence.
    + rewrite (IH i b1 y1 ys x0 x1 Hx0 Hx1 Heq) by (simpl in Hi; lia).
      reflexivity.
Qed.

(** A boundary equal to the one before it (the implicit boundary 0 before
    the first) makes [piecewise_linear_decay] raise [ZeroDivisionError],
    provided a value is given for it. *)
Theorem piecewise_linear_decay_empty_segment
  (boundaries values : list Q) (initial_value : Q) (i : nat) (x0 x1 : Q) :
  (0 :: boundaries) !! i = Some x0 -> boundaries !! i = Some x1 -> x1 == x0 ->
  (i < length values)%nat ->
  piecewise_linear_decay boundaries values initial_value = Raised ZeroDivisionError.
Proof.
  intros Hx0 Hx1 Heq Hi.
  change (piecewise_linear_decay boundaries values initial_value)
    with (decay_rates ←
            decay_rates_of (initial_value :: map (Qmult initial_value) values)
                           (decay_steps_of (0 :: boundaries));
          Returned (get_epsilon (0 :: boundaries) decay_rates
                      (initial_value :: map (Qmult initial_value) values))).
  rewrite (decay_rates_empty_segment boundaries i 0 initial_value
             (map (Qmult initial_value) values) x0 x1)
    by (assumption || (rewrite length_map; exact Hi)).
  reflexivity.
Qed.

(** The construction on a chain of knots that has at least as many levels
    as boundaries. *)
Lemma piecewise_chain_surplus (bs : list Q) : forall (b0 y0 : Q) (ys : list Q),
  (length bs <= length ys)%nat ->
  (forall b1, head bs = Some b1 -> ~ b1 == b0) ->
  strictly_increasing bs ->
  exists rates,
    decay_rates_of (y0 :: ys) (decay_steps_of (b0 :: bs)) = Returned rates /\
    (forall (i : nat) b y,
        bs !! i = Some b -> ys !! i = Some y ->
        get_epsilon (b0 :: bs) rates (y0 :: ys) b == y) /\
    (forall x, (forall b, b ∈ bs -> b < x) ->
        get_epsilon (b0 :: bs) rates (y0 :: ys) x == List.last (y0 :: ys) 0).
Proof.
  induction bs as [|b1 bs IH]; intros b0 y0 ys Hlen Hfirst Hinc.
  - exists []. split; [|split].
    + unfold decay_rates_of, decay_steps_of. cbn [removelast tail zip zip_with map].
      rewrite zip_with_nil_r. reflexivity.
    + intros i b y Hb. discriminate Hb.
    + intros x _. reflexivity.
  - destruct ys as [|y1 ys]; [simpl in Hlen; lia|].
    assert (Hne : ~ b1 - b0 == 0).
    { intros E. apply (Hfirst b1 eq_refl). lra. }
    assert (Habove := strictly_increasing_above b1 bs Hinc).
    destruct (IH b1 y1 ys) as (rates & Hrates & HK & HF).
    { simpl in Hlen. lia. }
    { intros b2 Hb2. destruct bs as [|b2' bs]; [discriminate Hb2|].
      injection Hb2 as ->. destruct Hinc as [Hlt _]. intros E. lra. }
    { eapply strictly_increasing_tail; eassumption. }
    exists (- (y0 - y1) / (b1 - b0) :: rates).
    split; [rewrite decay_rates_cons by assumption; rewrite Hrates; reflexivity|].
    split.
    + intros [|i] b y Hb Hy; rewrite get_epsilon_cons.
      * injection Hb as <-. injection Hy as <-.
        rewrite Qle_bool_true by apply Qle_refl. field. exact Hne.
      * cbn in Hb, Hy.
        rewrite Qle_bool_false by (apply Habove; eapply list_elem_of_lookup_2; eassumption).
        eapply HK; eassumption.
    + intros x Hx. rewrite get_epsilon_cons.
      rewrite Qle_bool_false by (apply Hx; left).
      rewrite HF by (intros b Hb; apply Hx; right; exact Hb).
      reflexivity.
Qed.

Lemma strictly_increasing_last (bs : list Q) (b_last : Q) :
  strictly_increasing bs -> last bs = Some b_last ->
  forall b, b ∈ bs -> b <= b_last.
Proof.
  induction bs as [|b0 bs IH]; intros Hinc Hlast b Hb.
  - discriminate Hlast.
  - destruct bs as [|b1 bs].
    + injection Hlast as <-. apply list_elem_of_singleton in Hb as ->. apply Qle_refl.
    + destruct Hinc as [Hlt Hinc].
      assert (Hb1 : b1 <= b_last) by (apply (IH Hinc Hlast); left).
      apply elem_of_cons in Hb as [->|Hb]; [lra|].
      apply (IH Hinc Hlast). exact Hb.
Qed.

(** Values beyond the number of boundaries are accepted: those that have a
    boundary are reached exactly at it, the others shape no segment, and the
    last value alone sets the level above all boundaries.  So at the last
    boundary the schedule is [initial_value * values[len(boundaries) - 1]]
    and right after it [initial_value * values[-1]]: it jumps there unless
    the two values are equal. *)
Theorem piecewise_linear_decay_surplus_values
  (boundaries values : list Q) (initial_value : Q) :
  strictly_increasing boundaries ->
  (forall b, head boundaries = Some b -> ~ b == 0) ->
  (length boundaries <= length values)%nat ->
  exists get_eps,
    piecewise_linear_decay boundaries values initial_value = Returned get_eps /\
    (forall (i : nat) b v,
        boundaries !! i = Some b -> values !! i = Some v ->
        get_eps b == initial_value * v) /\
    (forall b_last v_last x,
        last boundaries = Some b_last -> last values = Some v_last ->
        b_last < x -> get_eps x == initial_value * v_last).
Proof.
  intros Hinc Hfirst Hlen.
  destruct (piecewise_chain_surplus boundaries 0 initial_value
              (map (Qmult initial_value) values))
    as (rates & Hrates & HK & HF).
  { rewrite length_map. exact Hlen. }
  { exact Hfirst. }
  { exact Hinc. }
  exists (get_epsilon (0 :: boundaries) rates
            (initial_value :: map (Qmult initial_value) values)).
  split.
  { change (piecewise_linear_decay boundaries values initial_value)
      with (decay_rates ←
              decay_rates_of (initial_value :: map (Qmult initial_value) values)
                             (decay_steps_of (0 :: boundaries));
            Returned (get_epsilon (0 :: boundaries) decay_rates
                        (initial_value :: map (Qmult initial_value) values))).
    rewrite Hrates. reflexivity. }
  split.
  - intros i b v Hb Hv. apply (HK i); [exact Hb|].
    change (map (Qmult initial_value) values) with (Qmult initial_value <$> values).
    rewrite list_lookup_fmap, Hv. reflexivity.
  - intros b_last v_last x Hb Hv Hx. rewrite HF.
    + rewrite (last_scaled initial_value values v_last) by exact Hv. reflexivity.
    + intros b Hin.
      pose proof (strictly_increasing_last boundaries b_last Hinc Hb b Hin). lra.
Qed.

End PiecewiseMore.

(** [piecewise_linear_decay_surplus_values] with two boundaries and three
    values: 1/4 at the last boundary, 1/8 right after it. *)
Lemma piecewise_linear_decay_surplus_values_witness :
  exists get_eps,
    piecewise_linear_decay [10; 20]%Q [1 # 2; 1 # 4; 1 # 8]%Q 1%Q = Returned get_eps /\
    (get_eps 20 == 1 * (1 # 4))%Q /\ (get_eps 21 == 1 * (1 # 8))%Q.
Proof.
  destruct (piecewise_linear_decay_surplus_values
              [10; 20]%Q [1 # 2; 1 # 4; 1 # 8]%Q 1%Q)
    as (get_eps & Hrun & HK & HF).
  - split; [reflexivity|exact I].
  - intros b [= <-]. discriminate.
  - simpl. lia.
  - exists get_eps. split; [exact Hrun|]. split.
    + apply (HK 1%nat); reflexivity.
    + apply (HF 20%Q (1 # 8)%Q); reflexivity.
Defined.

(** [piecewise_linear_decay_empty_segment] for a boundary given twice. *)
Lemma piecewise_linear_decay_empty_segment_witness :
  piecewise_linear_decay [10; 20; 20; 30]%Q [1 # 2; 1 # 4; 1 # 8; 1 # 16]%Q 1%Q
    = Raised ZeroDivisionError.
Proof.
  apply (piecewise_linear_decay_empty_segment
           [10; 20; 20; 30]%Q [1 # 2; 1 # 4; 1 # 8; 1 # 16]%Q 1%Q 2%nat 20%Q 20%Q).
  - reflexivity.
  - reflexivity.
  - reflexivity.
  - simpl. lia.
Defined.

(** ** Piecewise-linear schedule: no overshoot *)

Section PiecewiseBounds.
Local Open Scope Q_scope.

(** A point of a segment, as a fraction of the way along it. *)
Lemma fraction_bounds (x0 x1 x : Q) :
  x0 < x1 -> x0 <= x -> x <= x1 ->
  0 <= (x - x0) / (x1 - x0) <= 1.
Proof.
  intros Hlt Hlo Hhi.
  assert (Hinv : 0 <= / (x1 - x0)) by (apply Qinv_le_0_compat; lra).
  split.
  - apply Qmult_le_0_compat; [lra|exact Hinv].
  - setoid_replace 1 with ((x1 - x0) / (x1 - x0)) using relation Qeq by (field; lra).
    apply Qmult_le_compat_r; [lra|exact Hinv].
Qed.

(** The line through two knots stays between their levels. *)
Lemma line_between (x0 x1 y0 y1 x : Q) :
  x0 < x1 -> x0 <= x -> x <= x1 ->
  (y0 <= y1 -> y0 <= y0 + (y1 - y0) / (x1 - x0) * (x - x0) <= y1) /\
  (y1 <= y0 -> y1 <= y0 + (y1 - y0) / (x1 - x0) * (x - x0) <= y0).
Proof.
  intros Hlt Hlo Hhi.
  destruct (fraction_bounds x0 x1 x Hlt Hlo Hhi) as [Ht0 Ht1].
  set (t := (x - x0) / (x1 - x0)) in *.
  assert (E : (y1 - y0) / (x1 - x0) * (x - x0) == (y1 - y0) * t)
    by (unfold t; field; lra).
  rewrite E. split; intros Hy.
  - assert (0 <= (y1 - y0) * t) by (apply Qmult_le_0_compat; lra).
    assert ((y1 - y0) * t <= (y1 - y0) * 1)
      by (apply Qmult_le_nonneg_l; lra).
    lra.
  - assert (0 <= (y0 - y1) * t) by (apply Qmult_le_0_compat; lra).
    assert ((y0 - y1) * t <= (y0 - y1) * 1)
      by (apply Qmult_le_nonneg_l; lra).
    assert ((y1 - y0) * t == - ((y0 - y1) * t)) by ring.
    lra.
Qed.

(** For strictly increasing boundaries above 0 with matching values, the
    schedule never overshoots: between two consecutive knots (0 and the
    boundaries, with levels [initial_value] and the scaled values) its value
    lies between the levels of the two knots. *)
Theorem piecewise_linear_decay_between_knots
  (boundaries values : list Q) (initial_value : Q) :
  strictly_increasing (0 :: boundaries) ->
  length values = length boundaries ->
  exists get_eps,
    piecewise_linear_decay boundaries values initial_value = Returned get_eps /\
    forall (i : nat) x0 x1 y0 y1 x,
      (0 :: boundaries) !! i = Some x0 -> boundaries !! i = Some x1 ->
      (initial_value :: map (Qmult initial_value) values) !! i = Some y0 ->
      map (Qmult initial_value) values !! i = Some y1 ->
      x0 <= x -> x <= x1 ->
      (y0 <= y1 -> y0 <= get_eps x <= y1) /\
      (y1 <= y0 -> y1 <= get_eps x <= y0).
Proof.
  intros Hinc Hlen.
  destruct (piecewise_chain boundaries 0 initial_value (map (Qmult initial_value) values))
    as (rates & Hrates & _ & HS & _).
  { rewrite length_map. exact Hlen. }
  { intros b Hb. destruct boundaries as [|b0 bs]; [discriminate Hb|].
    injection Hb as ->. destruct Hinc as [Hpos _]. intros E. lra. }
  { eapply strictly_increasing_tail; eassumption. }
  exists (get_epsilon (0 :: boundaries) rates
            (initial_value :: map (Qmult initial_value) values)).
  split.
  { change (piecewise_linear_decay boundaries values initial_value)
      with (decay_rates ←
              decay_rates_of (initial_value :: map (Qmult initial_value) values)
                             (decay_steps_of (0 :: boundaries));
            Returned (get_epsilon (0 :: boundaries) decay_rates
                        (initial_value :: map (Qmult initial_value) values))).
    rewrite Hrates. reflexivity. }
  intros i x0 x1 y0 y1 x Hx0 Hx1 Hy0 Hy1 Hlo Hhi.
  assert (Hlt : x0 < x1).
  { clear -Hinc Hx0 Hx1. revert i Hx0 Hx1.
    generalize dependent 0. induction boundaries as [|b1 bs IH]; intros b0 Hinc i Hx0 Hx1.
    - discriminate Hx1.
    - destruct Hinc as [Hb Hinc]. destruct i as [|i].
      + injection Hx0 as <-. injection Hx1 as <-. exact Hb.
      + apply (IH b1 Hinc i); assumption. }
  rewrite (HS i x0 x1 y0 y1 x) by (assumption || (right; assumption)).
  apply line_between; assumption.
Qed.

End PiecewiseBounds.

(** [piecewise_linear_decay_between_knots] on the boundaries of the example
    script, half way along the second segment. *)
Lemma piecewise_linear_decay_between_knots_witness :
  exists get_eps,
    piecewise_linear_decay [30000 # 1; 150000 # 1]%Q [1 # 10; 1 # 100]%Q 1%Q
      = Returned get_eps /\
    (1 # 100 <= get_eps (90000 # 1) <= 1 # 10)%Q.
Proof.
  destruct (piecewise_linear_decay_between_knots
              [30000 # 1; 150000 # 1]%Q [1 # 10; 1 # 100]%Q 1%Q)
    as (get_eps & Hrun & Hbetween).
  - split; [reflexivity|]. split; [reflexivity|exact I].
  - reflexivity.
  - exists get_eps. split; [exact Hrun|].
    apply (Hbetween 1%nat (30000 # 1) (150000 # 1) (1 * (1 # 10)) (1 * (1 # 100)))%Q;
      try reflexivity; discriminate.
Defined.

(** ** Discounted returns in closed form *)

Section DiscountedClosedForm.
Local Open Scope Q_scope.

Lemma Qpower_S (gamma : Q) (k : nat) :
  gamma ^ Z.of_nat (S k) == gamma * gamma ^ Z.of_nat k.
Proof.
  rewrite Nat2Z.inj_succ. unfold Z.succ. rewrite Z.add_comm.
  rewrite Qpower_plus' by lia. reflexivity.
Qed.

Lemma power_sum_shift (gamma : Q) (rewards : list Q) : forall k : nat,
  power_sum gamma (S k) rewards == gamma * power_sum gamma k rewards.
Proof.
  induction rewards as [|r rewards IH]; intros k; cbn [power_sum].
  - ring.
  - rewrite IH, Qpower_S. ring.
Qed.

Lemma returns_spec_head (gamma : Q) (rewards : list Q) :
  hd 0 (returns_spec gamma rewards) == power_sum gamma 0 rewards.
Proof.
  induction rewards as [|r rewards IH]; cbn [returns_spec hd power_sum].
  - reflexivity.
  - cbn [num_add num_mul num_zero Q_number].
    rewrite power_sum_shift, IH. change (gamma ^ Z.of_nat 0) with 1. ring.
Qed.

(** In exact arithmetic the value [discounted_sum_rewards] returns at
    position [t] is the discounted return in closed form,
    [r_t + gamma * r_(t+1) + gamma^2 * r_(t+2) + ...] over the rewards from
    [t] on; rewards before [t] play no part in it. *)
Theorem discounted_sum_rewards_closed_form (rewards : list Q) (gamma : Q) (t : nat) :
  nth t (discounted_sum_rewards rewards gamma) 0
  == power_sum gamma 0 (drop t rewards).
Proof.
  rewrite discounted_sum_rewards_spec.
  revert t. induction rewards as [|r rewards IH]; intros t.
  - destruct t; reflexivity.
  - destruct t as [|t].
    + apply (returns_spec_head gamma (r :: rewards)).
    + cbn [returns_spec nth drop]. apply IH.
Qed.

End DiscountedClosedForm.
